(** * meteor-vite: the package bundle parser

    A shallow embedding of
    [npm-packages/meteor-vite/src/meteor/package/Parser.ts], the analyzer
    that walks the Babel syntax tree of a compiled Meteor package bundle
    and recovers the package name, its module list with the export
    records of every module, the package-scope exports and the path of
    the main module. *)

From stdpp Require Import base option list strings gmap fin_maps.

Open Scope string_scope.
Open Scope list_scope.
Set Warnings "-register-all".

(** ** Numbers

    The analyzer never computes with a number: it tests one for truth,
    turns one into a string and stores one.  A number is therefore kept
    as its decimal form, the string that [Number.prototype.toString] and
    a template literal give for it (["2"], ["0.5"], ["1e+21"]).  The values
    of numeric literals are finite and not negative, or [Infinity]; on
    those the decimal form is one to one, and zero is the number whose
    form is ["0"]. *)

Inductive Number : Type :=
  | number (decimal : string).

(** ** Syntax trees

    The Babel node kinds the analyzer inspects, each with the fields it
    reads or the traversal descends into.  Besides the kinds it asks for
    by name these are the kinds that have one of the fields it reads
    without asking for the kind first: the literals with a [value], read
    from a property key, and the expressions with a [body] that has a
    [body], read from a property value.  The list is that of the trees
    [parse(code)] gives with its default options.  [Other] stands for
    every remaining node kind: the analyzer only ever looks at its [type].
    Fields that are not read ([computed], [shorthand], source locations,
    ...) are left out, and so are the directives of a program or of a
    block: the traversal visits them, and no recognizer matches one. *)

Inductive Node : Type :=
  | File (program : Node)
  | Program (body : list Node)
  | Identifier (name : string)
  | StringLiteral (value : string)
  | NumericLiteral (value : Number)
  | BooleanLiteral (value : bool)
  | BigIntLiteral (value : string)
  | ObjectExpression (properties : list Node)
  | ObjectProperty (key value : Node)
  | ObjectMethod (kind : string) (key : Node) (params : list Node) (body : Node)
  | SpreadElement (argument : Node)
  | FunctionExpression (id : option Node) (params : list Node) (body : Node)
  | ArrowFunctionExpression (params : list Node) (body : Node)
  | ClassExpression (id superClass : option Node) (body : Node)
  | ClassBody (body : list Node)
  | BlockStatement (body : list Node)
  | ExpressionStatement (expression : Node)
  | UnaryExpression (operator : string) (argument : Node)
  | CallExpression (callee : Node) (arguments : list Node)
  | MemberExpression (object property : Node)
  | VariableDeclaration (kind : string) (declarations : list Node)
  | VariableDeclarator (id : Node) (init : option Node)
  | Other (type : string) (children : list Node).

(** ** Failures

    [ParserError] and its subclass [ModuleExportsError], which carries
    the offending node.  [TypeError] is the JavaScript runtime failure of
    reading a field of [undefined] or of calling what is not a function,
    [ReferenceError] that of evaluating an identifier that has no
    binding. *)

Inductive Error : Type :=
  | ModuleExportsError (message : string) (node : Node)
  | ParserError (message : string)
  | TypeError
  | ReferenceError.

Inductive completion (A : Type) : Type :=
  | Return (a : A)
  | Throw (e : Error).
Arguments Return {A} a.
Arguments Throw {A} e.

#[global] Instance completion_ret : MRet completion := @Return.
#[global] Instance completion_bind : MBind completion := fun A B f m =>
  match m with
  | Return a => f a
  | Throw e => Throw e
  end.

Definition isReturn {A} (m : completion A) : bool :=
  match m with Return _ => true | Throw _ => false end.

(** Reading through a value that may be [undefined]. *)
Definition defined {A} (o : option A) : completion A :=
  match o with
  | Some a => Return a
  | None => Throw TypeError
  end.

(** [Array.prototype.forEach] with a callback that updates a state and
    may throw: the elements are visited from left to right and the first
    failure ends the loop. *)
Definition forEach {A S} (callback : A -> S -> completion S) : list A -> S -> completion S :=
  fix go (l : list A) (s : S) : completion S :=
    match l with
    | [] => Return s
    | x :: l' =>
        match callback x s with
        | Return s' => go l' s'
        | Throw e => Throw e
        end
    end.

(** [Array.prototype.map] with a callback that may throw. *)
Definition mapArray {A B} (callback : A -> completion B) : list A -> completion (list B) :=
  fix go (l : list A) : completion (list B) :=
    match l with
    | [] => Return []
    | x :: l' =>
        match callback x with
        | Return y =>
            match go l' with
            | Return ys => Return (y :: ys)
            | Throw e => Throw e
            end
        | Throw e => Throw e
        end
    end.

(** ** Data model *)

Inductive ExportType : Type :=
  | export
  | re_export
  | global_binding
  | export_default.

(** [ModuleExport]; the optional fields are [id], [from] and [as]. *)
Record ModuleExport : Type := mkModuleExport {
  export_name : string;
  export_type : ExportType;
  export_id : option Number;
  export_from : option string;
  export_as : option string;
}.

(** The two objects used as dictionaries, [modules] and
    [packageScopeExports], are plain objects created with [{}].  Each is
    kept as the finite map of its own properties, which is what
    [Object.keys] and [Object.assign] see; the order of the keys plays no
    role in what follows. *)
Abbreviation ModuleList := (gmap string (list ModuleExport)).
Abbreviation PackageScopeExports := (gmap string (list string)).

(** [object[key] = value] on such an object, where [value] is an array.
    The name [__proto__] is not an ordinary key: a plain object inherits
    it from [Object.prototype] as an accessor, so the assignment calls
    its setter, which makes the array the prototype of the object and
    adds no own property.  Every other name an object inherits is a
    writable data property, and the assignment creates an own property
    as it does for a new name. *)
Definition setProperty {V} (key : string) (value : V) (object : gmap string V)
    : gmap string V :=
  if String.eqb key "__proto__" then object else <[key := value]> object.

(** The value found under a property key: a string, a number, a
    boolean, or nothing.  The declared type of [ParsedPackage.name] is
    [string]; the unchecked cast in [parseMeteorInstall] lets the others
    through. *)
Inductive KeyValue : Type :=
  | undefined
  | str (s : string)
  | num (n : Number)
  | boolean (b : bool).

Definition truthy (v : KeyValue) : bool :=
  match v with
  | undefined => false
  | str s => negb (String.eqb s "")
  | num (number decimal) => negb (String.eqb decimal "0")
  | boolean b => b
  end.

(** [value.toString()] *)
Definition toString (v : KeyValue) : completion string :=
  match v with
  | undefined => Throw TypeError
  | str s => Return s
  | num (number decimal) => Return decimal
  | boolean b => Return (if b then "true" else "false")
  end.

(** String conversion inside a template literal. *)
Definition interpolate (v : KeyValue) : string :=
  match v with
  | undefined => "undefined"
  | str s => s
  | num (number decimal) => decimal
  | boolean b => if b then "true" else "false"
  end.

Record ParsedPackage : Type := mkParsedPackage {
  name : KeyValue;
  modules : ModuleList;
  mainModulePath : string;
  packageScopeExports : PackageScopeExports;
}.

(** ** Small readers on nodes *)

Definition isObjectExpression (n : Node) : bool :=
  match n with ObjectExpression _ => true | _ => false end.

(** [is('Identifier', node, { name })] *)
Definition isIdentifier (n : Node) (expected : string) : bool :=
  match n with
  | Identifier nm => String.eqb nm expected
  | _ => false
  end.

(** [node.properties] *)
Definition propertiesOf (n : Node) : option (list Node) :=
  match n with ObjectExpression ps => Some ps | _ => None end.

(** [property.value] *)
Definition valueOf (n : Node) : option Node :=
  match n with ObjectProperty _ v => Some v | _ => None end.

(** [property.key] *)
Definition keyOf (n : Node) : option Node :=
  match n with
  | ObjectProperty k _ => Some k
  | ObjectMethod _ k _ _ => Some k
  | _ => None
  end.

(** [key.value]; the value of a [BigIntLiteral] is the string of its
    digits. *)
Definition keyValue (k : Node) : KeyValue :=
  match k with
  | StringLiteral s => str s
  | NumericLiteral n => num n
  | BooleanLiteral b => boolean b
  | BigIntLiteral s => str s
  | _ => undefined
  end.

(** [propParser.getKey] *)
Definition getKey (property : Node) : completion string :=
  key ← defined (keyOf property);
  match key with
  | Identifier nm => Return nm
  | StringLiteral s => Return s
  | _ => Throw (ModuleExportsError "Unsupported property key type!" property)
  end.

(** ** Export statements *)

(** [formatExports]: the callback of [expression.properties.map].  The
    optional [packageName] and [id] literals are passed by their values. *)
Definition formatExport (packageName : option string) (id : option Number)
    (property : Node) : completion ModuleExport :=
  match property with
  | SpreadElement _ =>
      Throw (ModuleExportsError "Unexpected property type!" property)
  | _ =>
      nm ← getKey property;
      match packageName with
      | None => Return (mkModuleExport nm export id None None)
      | Some from =>
          match property with
          | ObjectMethod _ _ _ _ =>
              Return (mkModuleExport nm global_binding id (Some from) None)
          | ObjectProperty _ content =>
              match content with
              | StringLiteral s =>
                  Return (mkModuleExport nm re_export id (Some from)
                            (if String.eqb s nm then None else Some s))
              | _ =>
                  Throw (ModuleExportsError
                           "Received unsupported result type in re-export!"
                           property)
              end
          | _ => Return (mkModuleExport nm re_export id (Some from) None)
          end
      end
  end.

Definition formatExports (expression : list Node) (packageName : option string)
    (id : option Number) : completion (list ModuleExport) :=
  mapArray (formatExport packageName id) expression.

(** The pattern [/^module\d*$/]. *)
Definition isDigit (c : Ascii.ascii) : bool :=
  let n := Ascii.nat_of_ascii c in (48 <=? n)%nat && (n <=? 57)%nat.

Fixpoint allDigits (s : string) : bool :=
  match s with
  | EmptyString => true
  | String c s' => isDigit c && allDigits s'
  end.

Fixpoint stripPrefix (p s : string) : option string :=
  match p, s with
  | EmptyString, _ => Some s
  | String a p', String b s' => if Ascii.eqb a b then stripPrefix p' s' else None
  | String _ _, EmptyString => None
  end.

Definition isModuleBinding (nm : string) : bool :=
  match stripPrefix "module" nm with
  | Some rest => allDigits rest
  | None => false
  end.

(** The loop shared by [parseMeteorInstall] and [handleMainModule]:
    every statement goes through [readModuleExports] and what it returns,
    if anything, is pushed onto the list. *)
Definition collectExports (readModuleExports : Node -> completion (option (list ModuleExport)))
    (body : list Node) (exportList : list ModuleExport) : completion (list ModuleExport) :=
  forEach (fun node exportList =>
             exports ← readModuleExports node;
             match exports with
             | None => Return exportList
             | Some exports => Return (exportList ++ exports)
             end) body exportList.

(** [handleMainModule], open in its recursive call. *)
Definition handleMainModuleWith
    (readModuleExports : Node -> completion (option (list ModuleExport)))
    (expression : Node) : completion (option (list ModuleExport)) :=
  match expression with
  | UnaryExpression operator argument =>
      if negb (String.eqb operator "!") then Return None else
      match argument with
      | CallExpression callee _ =>
          match callee with
          | MemberExpression object _ =>
              match object with
              | FunctionExpression _ _ mainModule =>
                  match mainModule with
                  | BlockStatement body =>
                      moduleExports ← collectExports readModuleExports body [];
                      Return (Some moduleExports)
                  | _ => Throw TypeError
                  end
              | _ => Return None
              end
          | _ => Return None
          end
      | _ => Return None
      end
  | _ => Return None
  end.

(** [readModuleExports], on the calls [module.exportDefault], [module.export]
    and [module.link]. *)
Definition readModuleCall (callee : Node) (args : list Node)
    : completion (option (list ModuleExport)) :=
  match callee with
  | MemberExpression (Identifier object) (Identifier methodName) =>
      if negb (isModuleBinding object) then Return None else
      if String.eqb methodName "exportDefault" then
        arg0 ← defined (args !! 0%nat);
        match arg0 with
        | Identifier nm => Return (Some [mkModuleExport nm export_default None None None])
        | _ => Throw (ModuleExportsError "Unexpected default export value!" arg0)
        end
      else if String.eqb methodName "export" then
        arg0 ← defined (args !! 0%nat);
        match arg0 with
        | ObjectExpression properties =>
            exports ← formatExports properties None None;
            Return (Some exports)
        | _ =>
            (* [new ModuleExportsError('Unexpected export type!', exports)]:
               the arguments are evaluated first, and [exports] is bound
               nowhere in this ES module *)
            Throw ReferenceError
        end
      else if negb (String.eqb methodName "link") then Return None else
        arg0 ← defined (args !! 0%nat);
        match arg0 with
        | StringLiteral packageName =>
            arg1 ← defined (args !! 1%nat);
            match arg1 with
            | ObjectExpression properties =>
                arg2 ← defined (args !! 2%nat);
                match arg2 with
                | NumericLiteral id =>
                    exports ← formatExports properties (Some packageName) (Some id);
                    Return (Some exports)
                | _ => Throw (ModuleExportsError
                         "Expected NumericLiteral as the last argument in module.link()!"
                         arg0)
                end
            | _ => Throw (ModuleExportsError
                     "Expected ObjectExpression as the second argument in module.link()!"
                     arg0)
            end
        | _ => Throw (ModuleExportsError
                 "Expected string as the first argument in module.link()!" arg0)
        end
  | _ => Return None
  end.

Fixpoint readModuleExports (node : Node) : completion (option (list ModuleExport)) :=
  match node with
  | ExpressionStatement expression =>
      match expression with
      | UnaryExpression _ _ => handleMainModuleWith readModuleExports expression
      | CallExpression callee args => readModuleCall callee args
      | _ => Return None
      end
  | _ => Return None
  end.

Definition handleMainModule (expression : Node) : completion (option (list ModuleExport)) :=
  handleMainModuleWith readModuleExports expression.

(** ** The package scope: [Package._define(name, moduleExports, packageExports)] *)

Record PackageExport : Type := mkPackageExport {
  scope_name : string;
  scope_exports : list string;
}.

(** The guards that single out a [Package._define] call. *)
Definition isPackageDefine (node : Node) : bool :=
  match node with
  | CallExpression (MemberExpression (Identifier object) (Identifier property)) _ =>
      String.eqb object "Package" && String.eqb property "_define"
  | _ => false
  end.

Definition parsePackageScope (node : Node) : completion (option PackageExport) :=
  match node with
  | CallExpression _ args =>
      if negb (isPackageDefine node) then Return None else
      let packageName := args !! 0%nat in
      let moduleExports := args !! 1%nat in
      let packageExports :=
        match args !! 2%nat with
        | Some third => Some third
        | None =>
            (* core packages that do not use the module system *)
            match moduleExports with
            | Some (ObjectExpression _) => moduleExports
            | _ => None
            end
        end in
      match packageExports with
      | None => Return None
      | Some (ObjectExpression properties) =>
          packageName ← defined packageName;
          match packageName with
          | StringLiteral value =>
              exports ← forEach (fun property exports =>
                  match property with
                  | SpreadElement _ =>
                      Throw (ModuleExportsError
                               "Unexpected property type received for package-scope exports!"
                               property)
                  | _ => key ← getKey property; Return (exports ++ [key])
                  end) properties [];
              Return (Some (mkPackageExport value exports))
          | _ => Throw (ModuleExportsError "Unexpected type received for package name!"
                          packageName)
          end
      | Some packageExports =>
          Throw (ModuleExportsError
                   "Unexpected type received for package-scope exports argument!"
                   packageExports)
      end
  | _ => Return None
  end.

(** ** The installer call: [meteorInstall({ node_modules: { meteor: { <name>: ... } } })] *)

Record MeteorInstall : Type := mkMeteorInstall {
  install_name : KeyValue;
  install_modules : ModuleList;
}.

(** [node.body] when it is an array. *)
Definition bodyList (n : Node) : option (list Node) :=
  match n with
  | BlockStatement body => Some body
  | ClassBody body => Some body
  | Program body => Some body
  | _ => None
  end.

(** [property.value.body.body], read of any value: functions, arrow
    functions, classes and object methods have a [body], and it has a
    [body] that is an array when it is a block or a class body.  In every
    other case the [forEach] that follows fails. *)
Definition moduleBody (value : Node) : option (list Node) :=
  match value with
  | FunctionExpression _ _ body => bodyList body
  | ArrowFunctionExpression _ body => bodyList body
  | ClassExpression _ _ body => bodyList body
  | ObjectMethod _ _ _ body => bodyList body
  | _ => None
  end.

(** The callback of [properties.forEach] inside [traverseModules].  The
    source stores the still empty [exportList] under [path] and then fills
    it in place; no other code sees the list in between, so the model
    stores it once it is complete. *)
Fixpoint traverseModule (property : Node) (parentPath : string)
    (modules : ModuleList) {struct property} : completion ModuleList :=
  match property with
  | ObjectProperty key value =>
      segment ← toString (keyValue key);
      let path := parentPath +:+ segment in
      match value with
      | ObjectExpression properties =>
          forEach (fun property modules =>
                     traverseModule property (path +:+ "/") modules)
                  properties modules
      | _ =>
          body ← defined (moduleBody value);
          exportList ← collectExports readModuleExports body [];
          Return (setProperty path exportList modules)
      end
  | _ => Throw TypeError
  end.

Definition traverseModules (properties : list Node) (parentPath : string)
    (modules : ModuleList) : completion ModuleList :=
  forEach (fun property modules => traverseModule property parentPath modules)
          properties modules.

(** The guards that single out an installer call. *)
Definition isMeteorInstall (node : Node) : bool :=
  match node with
  | CallExpression callee _ => isIdentifier callee "meteorInstall"
  | _ => false
  end.

(** [object.properties[0]] as a property with a value *)
Definition firstProperty (object : Node) : completion (Node * Node) :=
  properties ← defined (propertiesOf object);
  first ← defined (properties !! 0%nat);
  match first with
  | ObjectProperty key value => Return (key, value)
  | _ => Throw TypeError
  end.

Definition parseMeteorInstall (node : Node) : completion (option MeteorInstall) :=
  match node with
  | CallExpression _ args =>
      if negb (isMeteorInstall node) then Return None else
      packageConfig ← defined (args !! 0%nat);
      node_modules ← firstProperty packageConfig;
      meteor ← firstProperty (node_modules.2);
      packageName ← firstProperty (meteor.2);
      packageModules ← defined (propertiesOf (packageName.2));
      modules ← traverseModules packageModules "" ∅;
      Return (Some (mkMeteorInstall (keyValue (packageName.1)) modules))
  | _ => Return None
  end.

(** ** The main module: [var exports = require("<path>")] *)

Definition readMainModulePath (node : Node) : option string :=
  match node with
  | VariableDeclarator id (Some (CallExpression callee args)) =>
      if isIdentifier id "exports" && isIdentifier callee "require" then
        match args !! 0%nat with
        | Some (StringLiteral value) => Some value
        | _ => None
        end
      else None
  | _ => None
  end.

(** ** Traversal *)

(** Modelled from the spec: the tree walker is Babel's [traverse], a
    depth-first walk that calls [enter] on a node before its children.
    The children are listed in the order of Babel's visitor keys. *)
Fixpoint preorder (node : Node) : list Node :=
  node ::
  match node with
  | File program => preorder program
  | Program body => flat_map preorder body
  | Identifier _ | StringLiteral _ | NumericLiteral _ | BooleanLiteral _
  | BigIntLiteral _ => []
  | ObjectExpression properties => flat_map preorder properties
  | ObjectProperty key value => preorder key ++ preorder value
  | ObjectMethod _ key params body =>
      preorder key ++ flat_map preorder params ++ preorder body
  | SpreadElement argument => preorder argument
  | FunctionExpression id params body =>
      match id with Some i => preorder i | None => [] end
      ++ flat_map preorder params ++ preorder body
  | ArrowFunctionExpression params body => flat_map preorder params ++ preorder body
  | ClassExpression id superClass body =>
      match id with Some i => preorder i | None => [] end
      ++ match superClass with Some c => preorder c | None => [] end
      ++ preorder body
  | ClassBody body => flat_map preorder body
  | BlockStatement body => flat_map preorder body
  | ExpressionStatement expression => preorder expression
  | UnaryExpression _ argument => preorder argument
  | CallExpression callee args => preorder callee ++ flat_map preorder args
  | MemberExpression object property => preorder object ++ preorder property
  | VariableDeclaration _ declarations => flat_map preorder declarations
  | VariableDeclarator id init =>
      preorder id ++ match init with Some i => preorder i | None => [] end
  | Other _ children => flat_map preorder children
  end.

Definition traverse {S} (enter : Node -> S -> completion S) (tree : Node) (state : S)
    : completion S :=
  forEach enter (preorder tree) state.

(** ** The driver *)

(** [a || b] on strings *)
Definition orElse (a : option string) (b : string) : string :=
  match a with
  | Some s => if String.eqb s "" then b else s
  | None => b
  end.

(** The [enter] visitor of [parseSource]. *)
Definition enter (node : Node) (result : ParsedPackage) : completion ParsedPackage :=
  packageScope ← parsePackageScope node;
  meteorInstall ← parseMeteorInstall node;
  let result :=
    mkParsedPackage (name result) (modules result)
      (orElse (readMainModulePath node) (mainModulePath result))
      (packageScopeExports result) in
  let result :=
    match meteorInstall with
    | Some install =>
        mkParsedPackage (install_name install) (install_modules install)
          (mainModulePath result) (packageScopeExports result)
    | None => result
    end in
  match packageScope with
  | Some scope =>
      Return (mkParsedPackage
                (if truthy (name result) then name result else str (scope_name scope))
                (modules result) (mainModulePath result)
                (setProperty (scope_name scope) (scope_exports scope)
                   (packageScopeExports result)))
  | None => Return result
  end.

Definition emptyPackage : ParsedPackage :=
  mkParsedPackage (str "") ∅ "" ∅.

(** [parseSource], from the tree that [parse(code)] returns. *)
Definition parseSource (source : Node) : completion ParsedPackage :=
  traverse enter source emptyPackage.

(** The two failures of the final validation. *)
Definition missingName (filePath : string) : Error :=
  ParserError ("Could not extract name from package in: " +:+ filePath).

Definition emptyResult (name : KeyValue) : Error :=
  ParserError ("No modules or package-scope exports could be extracted from package: "
               +:+ interpolate name).

(** [parseMeteorPackage]; the value handed to [MeteorPackage] on success
    is the parsed package (the elapsed time is left out). *)
Definition parseMeteorPackage (filePath : string) (source : Node)
    : completion ParsedPackage :=
  match parseSource source with
  | Throw (ModuleExportsError _ _) =>
      Throw (ParserError "Failed to parse source code. See previous error.")
  | Throw error => Throw error
  | Return result =>
      if negb (truthy (name result)) then Throw (missingName filePath) else
      let moduleExports := size (modules result) in
      let packageExports := size (packageScopeExports result) in
      if (moduleExports =? 0)%nat && (packageExports =? 0)%nat then
        Throw (emptyResult (name result))
      else Return result
  end.

(** * Vocabulary of the properties *)

(** ** Syntax of the statements the claims speak about *)

(** [<object>.<method>(<args>);] *)
Definition moduleCall (object method : string) (args : list Node) : Node :=
  ExpressionStatement
    (CallExpression (MemberExpression (Identifier object) (Identifier method)) args).

(** [<object>.link("<from>", { <bindings> }, <id>);] *)
Definition linkCall (object from : string) (bindings : list Node) (id : Number) : Node :=
  moduleCall object "link" [StringLiteral from; ObjectExpression bindings; NumericLiteral id].


(** [function module(require, exports, module) { <body> }] *)
Definition moduleFunction (body : list Node) : Node :=
  FunctionExpression (Some (Identifier "module"))
    [Identifier "require"; Identifier "exports"; Identifier "module"]
    (BlockStatement body).

(** [meteorInstall({ "node_modules": { "meteor": { <package>: { <modules> } } } }, <options>)] *)
Definition installerCall (package : Node) (packageModules options : list Node) : Node :=
  CallExpression (Identifier "meteorInstall")
    (ObjectExpression
       [ObjectProperty (StringLiteral "node_modules")
          (ObjectExpression
             [ObjectProperty (StringLiteral "meteor")
                (ObjectExpression
                   [ObjectProperty package (ObjectExpression packageModules)])])]
     :: options).

(** [Package._define(<args>)] *)
Definition defineCall (args : list Node) : Node :=
  CallExpression (MemberExpression (Identifier "Package") (Identifier "_define")) args.

(** [var exports = require("<path>");] as a declarator *)
Definition exportsRequire (path : string) : Node :=
  VariableDeclarator (Identifier "exports")
    (Some (CallExpression (Identifier "require") [StringLiteral path])).

(** ** Reference notions *)

(** The name a property is listed under: its key, when that is an
    identifier or a string literal. *)
Definition propertyKey (property : Node) : option string :=
  match property with
  | ObjectProperty (Identifier k) _ | ObjectProperty (StringLiteral k) _
  | ObjectMethod _ (Identifier k) _ _ | ObjectMethod _ (StringLiteral k) _ _ => Some k
  | _ => None
  end.

(** The declarations that stand directly in the program. *)
Definition topLevelDeclarators (source : Node) : list Node :=
  match source with
  | File (Program body) =>
      flat_map (fun statement =>
                  match statement with
                  | VariableDeclaration _ declarations => declarations
                  | _ => []
                  end) body
  | _ => []
  end.

(** What a statement adds to the export list of its module. *)
Definition pushed (exports : option (list ModuleExport)) : list ModuleExport :=
  default [] exports.

(** The export list of a whole module body, and the bodies on which no
    statement raises an error. *)
Definition moduleExports (body : list Node) : list ModuleExport :=
  flat_map (fun statement =>
              match readModuleExports statement with
              | Return exports => pushed exports
              | Throw _ => []
              end) body.

Definition bodyReturns (body : list Node) : bool :=
  forallb (fun statement => isReturn (readModuleExports statement)) body.

(** The leaf modules below a property, each with the keys on the way
    down to it and its body. *)
Fixpoint leaves (property : Node) : list (list string * list Node) :=
  match property with
  | ObjectProperty (StringLiteral key) value =>
      match value with
      | ObjectExpression properties =>
          (fun leaf => (key :: leaf.1, leaf.2)) <$> flat_map leaves properties
      | FunctionExpression _ _ (BlockStatement body) => [([key], body)]
      | _ => []
      end
  | _ => []
  end.

(** The shape [MeteorPackageProperty] declares: a string key with either
    a function or a nested object of the same shape.  Module bodies are
    asked not to make [readModuleExports] raise an error. *)
Fixpoint validModule (property : Node) : bool :=
  match property with
  | ObjectProperty (StringLiteral _) value =>
      match value with
      | ObjectExpression properties => forallb validModule properties
      | FunctionExpression _ _ (BlockStatement body) => bodyReturns body
      | _ => false
      end
  | _ => false
  end.

(** The path of a leaf: its keys joined with slashes. *)
Definition leafPath (keys : list string) : string := String.concat "/" keys.

(** The entries the leaves below [property] stand for, under a prefix. *)
Definition entries (parentPath : string) (property : Node)
    : list (string * list ModuleExport) :=
  (fun leaf => (parentPath +:+ leafPath leaf.1, moduleExports leaf.2)) <$> leaves property.

(** Storing entries one after the other. *)
Definition storeAll (l : list (string * list ModuleExport)) (modules : ModuleList)
    : ModuleList :=
  foldl (fun modules entry => setProperty entry.1 entry.2 modules) modules l.

(** The paths of all the leaf modules of a package, in order. *)
Definition leafPaths (packageModules : list Node) : list string :=
  (fun leaf => leafPath leaf.1) <$> flat_map leaves packageModules.

(** ** Sample bundles *)

(** A bundle whose installer call sits between two [Package._define]
    calls, and one with two [Package._define] calls only. *)
Definition installerBetweenDefines : Node :=
  File (Program
    [ExpressionStatement
       (defineCall [StringLiteral "earlier";
                    ObjectExpression [ObjectProperty (Identifier "a") (Identifier "a")]]);
     ExpressionStatement
       (installerCall (StringLiteral "check")
          [ObjectProperty (StringLiteral "match.js") (moduleFunction [])] []);
     ExpressionStatement
       (defineCall [StringLiteral "later"; Identifier "exports";
                    ObjectExpression [ObjectProperty (Identifier "b") (Identifier "b")]])]).

Definition twoDefines : Node :=
  File (Program
    [ExpressionStatement
       (defineCall [StringLiteral "meteor";
                    ObjectExpression [ObjectProperty (Identifier "Meteor") (Identifier "Meteor")]]);
     ExpressionStatement
       (defineCall [StringLiteral "other";
                    ObjectExpression [ObjectProperty (Identifier "b") (Identifier "b")]])]).

(** A bundle whose installer call writes the package key without
    quotes, followed by a [Package._define] call. *)
Definition unquotedPackageKey : Node :=
  File (Program
    [ExpressionStatement
       (installerCall (Identifier "check")
          [ObjectProperty (StringLiteral "match.js") (moduleFunction [])] []);
     ExpressionStatement
       (defineCall [StringLiteral "later"; Identifier "exports";
                    ObjectExpression [ObjectProperty (Identifier "b") (Identifier "b")]])]).

(** A package with a module at the top and one in a subdirectory. *)
Definition nestedModules : list Node :=
  [ObjectProperty (StringLiteral "index.ts")
     (moduleFunction
        [moduleCall "module" "export"
           [ObjectExpression [ObjectMethod "method" (Identifier "first") [] (BlockStatement [])]]]);
   ObjectProperty (StringLiteral "subdirectory")
     (ObjectExpression
        [ObjectProperty (StringLiteral "module-in-subdirectory.ts")
           (moduleFunction
              [moduleCall "module" "export"
                 [ObjectExpression
                    [ObjectMethod "method" (Identifier "WhereAmI") [] (BlockStatement [])]]])])].

(** A file in a subdirectory and a file whose own name spells the same
    path. *)
Definition collidingModules : list Node :=
  [ObjectProperty (StringLiteral "lib")
     (ObjectExpression
        [ObjectProperty (StringLiteral "index.js")
           (moduleFunction
              [moduleCall "module" "export"
                 [ObjectExpression
                    [ObjectMethod "method" (Identifier "First") [] (BlockStatement [])]]])]);
   ObjectProperty (StringLiteral "lib/index.js")
     (moduleFunction
        [moduleCall "module" "export"
           [ObjectExpression
              [ObjectMethod "method" (Identifier "Second") [] (BlockStatement [])]]])].






(** The bundle of a package [check] as Meteor writes it: the installer
    call, the main module declaration and the package scope, inside the
    wrapper function of the package. *)
Definition checkBundle : Node :=
  File (Program
    [ExpressionStatement
       (CallExpression
          (FunctionExpression None []
             (BlockStatement
                [VariableDeclaration "var"
                   [VariableDeclarator (Identifier "require")
                      (Some (installerCall (StringLiteral "check")
                               [ObjectProperty (StringLiteral "match.js")
                                  (moduleFunction
                                     [moduleCall "module" "export"
                                        [ObjectExpression
                                           [ObjectMethod "method" (Identifier "check") []
                                              (BlockStatement []);
                                            ObjectMethod "method" (Identifier "Match") []
                                              (BlockStatement [])]];
                                      linkCall "module" "./isPlainObject"
                                        [ObjectMethod "method" (Identifier "isPlainObject")
                                           [Identifier "v"] (BlockStatement [])] (number "0")]);
                                ObjectProperty (StringLiteral "isPlainObject.js")
                                  (moduleFunction
                                     [moduleCall "module" "export"
                                        [ObjectExpression
                                           [ObjectMethod "method" (Identifier "isPlainObject")
                                              [] (BlockStatement [])]]])]
                               [ObjectExpression []]))];
                 VariableDeclaration "var"
                   [exportsRequire "/node_modules/meteor/check/match.js"];
                 ExpressionStatement
                   (defineCall
                      [StringLiteral "check"; Identifier "exports";
                       ObjectExpression
                         [ObjectProperty (Identifier "check") (Identifier "check");
                          ObjectProperty (Identifier "Match") (Identifier "Match")]])]))
          [])]).

(** ** Notions for the properties of the single functions *)

(** The fields a record may carry, by its type: a named or default export
    has a name only; a global binding adds [from] and [id]; a re-export
    may also have an [as], which then differs from its name. *)
Definition wellFormedExport (record : ModuleExport) : bool :=
  match export_type record, export_id record, export_from record, export_as record with
  | export, None, None, None => true
  | export_default, None, None, None => true
  | global_binding, Some _, Some _, None => true
  | re_export, Some _, Some _, None => true
  | re_export, Some _, Some _, Some alias => negb (String.eqb alias (export_name record))
  | _, _, _, _ => false
  end.

(** The record of a named export. *)
Definition namedExport (nm : string) : ModuleExport :=
  mkModuleExport nm export None None None.


(** A module list all of whose records are well formed. *)
Definition wellFormedModules (modules : ModuleList) : Prop :=
  map_Forall (fun _ records => Forall (fun record => wellFormedExport record = true) records)
    modules.


(** A bundle with a module file and a package both named [__proto__],
    beside an ordinary module and an ordinary package. *)
Definition protoBundle : Node :=
  File (Program
    [ExpressionStatement
       (installerCall (StringLiteral "demo")
          [ObjectProperty (StringLiteral "__proto__")
             (moduleFunction
                [moduleCall "module" "export"
                   [ObjectExpression [ObjectMethod "method" (Identifier "A") [] (BlockStatement [])]]]);
           ObjectProperty (StringLiteral "index.js")
             (moduleFunction
                [moduleCall "module" "export"
                   [ObjectExpression [ObjectMethod "method" (Identifier "B") [] (BlockStatement [])]]])]
          []);
     ExpressionStatement
       (defineCall [StringLiteral "__proto__";
                    ObjectExpression [ObjectProperty (Identifier "a") (Identifier "a")]]);
     ExpressionStatement
       (defineCall [StringLiteral "demo";
                    ObjectExpression [ObjectProperty (Identifier "b") (Identifier "b")]])]).

(** A bundle with two installer calls. *)
Definition twoInstallers : Node :=
  File (Program
    [ExpressionStatement
       (installerCall (StringLiteral "first")
          [ObjectProperty (StringLiteral "a.js")
             (moduleFunction
                [moduleCall "module" "export"
                   [ObjectExpression [ObjectMethod "method" (Identifier "A") [] (BlockStatement [])]]])]
          []);
     ExpressionStatement
       (installerCall (StringLiteral "second")
          [ObjectProperty (StringLiteral "b.js")
             (moduleFunction
                [moduleCall "module" "export"
                   [ObjectExpression [ObjectMethod "method" (Identifier "B") [] (BlockStatement [])]]])]
          [])]).

(** A bundle that defines the package scope of one package twice and of
    another package once. *)
Definition redefinedScope : Node :=
  File (Program
    [ExpressionStatement
       (defineCall [StringLiteral "meteor";
                    ObjectExpression [ObjectProperty (Identifier "Old") (Identifier "Old")]]);
     ExpressionStatement
       (defineCall [StringLiteral "other";
                    ObjectExpression [ObjectProperty (Identifier "b") (Identifier "b")]]);
     ExpressionStatement
       (defineCall [StringLiteral "meteor"; Identifier "exports";
                    ObjectExpression [ObjectProperty (Identifier "Meteor") (Identifier "Meteor");
                                      ObjectProperty (Identifier "global") (Identifier "global")]])]).

(** The three arguments [module.link] asks for: a string literal, an
    object literal and a numeric literal. *)
Definition linkArguments (first second third : Node) : bool :=
  match first, second, third with
  | StringLiteral _, ObjectExpression _, NumericLiteral _ => true
  | _, _, _ => false
  end.

(** A string of decimal digits, by its characters. *)
Definition digits (s : string) : Prop :=
  Forall (fun c => isDigit c = true) (String.list_ascii_of_string s).

(** * Properties *)

(** ** The whole extraction on a sample *)

Example parseMeteorPackage_check :
  parseMeteorPackage "check.js" checkBundle
  = Return
      (mkParsedPackage (str "check")
         (<["isPlainObject.js" := [mkModuleExport "isPlainObject" export None None None]]>
            {["match.js" :=
                [mkModuleExport "check" export None None None;
                 mkModuleExport "Match" export None None None;
                 mkModuleExport "isPlainObject" global_binding (Some (number "0"))
                   (Some "./isPlainObject") None]]})
         "/node_modules/meteor/check/match.js"
         {["check" := ["check"; "Match"]]}).
Proof. vm_compute. reflexivity. Qed.

(** ** Loops *)

Lemma forEach_app {A S} (f : A -> S -> completion S) (l1 l2 : list A) (s : S) :
  forEach f (l1 ++ l2) s = forEach f l1 s ≫= forEach f l2.
Proof.
  revert s. induction l1 as [|x l1 IH]; intros s; simpl; [done|].
  destruct (f x s); simpl; [apply IH | done].
Qed.

Lemma forEach_throw {A S} (f : A -> S -> completion S) (l1 l2 : list A) (x : A)
    (s s1 : S) (e : Error) :
  forEach f l1 s = Return s1 -> f x s1 = Throw e ->
  forEach f (l1 ++ x :: l2) s = Throw e.
Proof.
  intros H1 Hx. rewrite forEach_app, H1. simpl. by rewrite Hx.
Qed.

Lemma mapArray_lookup {A B} (f : A -> completion B) (l : list A) (ys : list B)
    (i : nat) (x : A) :
  mapArray f l = Return ys -> l !! i = Some x ->
  exists y, f x = Return y /\ ys !! i = Some y.
Proof.
  revert ys i. induction l as [|a l IH]; intros ys i Hmap Hi; [done|].
  simpl in Hmap. destruct (f a) as [b|] eqn:Ha; [|done].
  destruct (mapArray f l) as [bs|] eqn:Hl; [|done].
  injection Hmap as <-. destruct i as [|i]; simpl in *.
  - injection Hi as <-. eauto.
  - eauto.
Qed.

(** ** Objects used as dictionaries *)

Lemma setProperty_key {V} (key : string) (value : V) (object : gmap string V) :
  key <> "__proto__" -> setProperty key value object = <[key := value]> object.
Proof.
  intros Hkey. unfold setProperty. by destruct (String.eqb_spec key "__proto__").
Qed.

Lemma lookup_setProperty_eq {V} (key : string) (value : V) (object : gmap string V) :
  key <> "__proto__" -> setProperty key value object !! key = Some value.
Proof.
  intros Hkey. rewrite setProperty_key by done. apply lookup_insert_eq.
Qed.

Lemma lookup_setProperty_ne {V} (key other : string) (value : V)
    (object : gmap string V) :
  key <> other -> setProperty key value object !! other = object !! other.
Proof.
  intros Hne. unfold setProperty. destruct (String.eqb key "__proto__"); [done|].
  by apply lookup_insert_ne.
Qed.

(** The name [__proto__] never becomes an own property. *)
Lemma lookup_setProperty_proto {V} (key : string) (value : V) (object : gmap string V) :
  object !! "__proto__" = None -> setProperty key value object !! "__proto__" = None.
Proof.
  intros Hproto. unfold setProperty.
  destruct (String.eqb_spec key "__proto__") as [->|Hkey]; [done|].
  by rewrite lookup_insert_ne.
Qed.

(** ** Bindings of [module.link] *)

Lemma readModuleExports_link (object from : string) (bindings : list Node) (id : Number) :
  isModuleBinding object = true ->
  readModuleExports (linkCall object from bindings id)
  = formatExports bindings (Some from) (Some id) ≫= fun l => Return (Some l).
Proof.
  intros Hobj. simpl. rewrite Hobj. reflexivity.
Qed.

Lemma mapArray_total {A B} (f : A -> completion B) (l : list A) :
  Forall (fun x => isReturn (f x) = true) l ->
  exists ys, mapArray f l = Return ys /\ length ys = length l.
Proof.
  induction 1 as [|x l Hx _ (ys & Hys & Hlength)]; simpl.
  - by exists [].
  - destruct (f x) as [y|]; [|done]. rewrite Hys. exists (y :: ys).
    simpl. by rewrite Hlength.
Qed.

(** What a [module.link] call yields, seen from one of its bindings: the
    call on that binding alone yields its record; a call all of whose
    bindings are read yields one record per binding, with the record of
    this binding in its place; and the call is never passed over. *)
Lemma readModuleExports_link_binding (object from : string) (id : Number)
    (bindings : list Node) (i : nat) (binding : Node) (record : ModuleExport) :
  isModuleBinding object = true ->
  bindings !! i = Some binding ->
  formatExport (Some from) (Some id) binding = Return record ->
  readModuleExports (linkCall object from [binding] id) = Return (Some [record])
  /\ (Forall (fun other => isReturn (formatExport (Some from) (Some id) other) = true)
             bindings ->
      exists records,
        readModuleExports (linkCall object from bindings id) = Return (Some records)
        /\ records !! i = Some record
        /\ length records = length bindings)
  /\ readModuleExports (linkCall object from bindings id) <> Return None
  /\ (forall records,
        readModuleExports (linkCall object from bindings id) = Return (Some records) ->
        records !! i = Some record).
Proof.
  intros Hobj Hi Hfmt.
  assert (Hlookup : forall records,
            readModuleExports (linkCall object from bindings id) = Return (Some records) ->
            records !! i = Some record).
  { intros records Hread. rewrite readModuleExports_link in Hread by done.
    unfold formatExports in Hread.
    destruct (mapArray _ bindings) as [rs|] eqn:Hmap; [|done].
    simpl in Hread. injection Hread as <-.
    destruct (mapArray_lookup _ _ _ _ _ Hmap Hi) as (y & Hy & Hlook).
    rewrite Hfmt in Hy. by injection Hy as <-. }
  split_and!.
  - rewrite readModuleExports_link by done. unfold formatExports. simpl.
    by rewrite Hfmt.
  - intros Hall. destruct (mapArray_total _ _ Hall) as (records & Hmap & Hlength).
    assert (Hread : readModuleExports (linkCall object from bindings id)
                    = Return (Some records)).
    { rewrite readModuleExports_link by done. unfold formatExports. by rewrite Hmap. }
    exists records. split_and!; [done| |done]. by apply Hlookup.
  - rewrite readModuleExports_link by done. unfold formatExports.
    by destruct (mapArray _ bindings).
  - exact Hlookup.
Qed.

(** C3. A binding of [module.link] whose value is a string literal gives
    a re-export named after the key; [as] is absent when the string equals
    the key and is the string otherwise.  The call on this binding yields
    exactly that record, and in a call with several bindings the record
    takes the binding's place in the list the statement yields. *)
Theorem link_string_binding (object from : string) (id : Number) (bindings : list Node)
    (i : nat) (key : Node) (nm s : string) :
  isModuleBinding object = true ->
  key = Identifier nm \/ key = StringLiteral nm ->
  bindings !! i = Some (ObjectProperty key (StringLiteral s)) ->
  exists record,
    formatExport (Some from) (Some id) (ObjectProperty key (StringLiteral s))
      = Return record
    /\ export_type record = re_export
    /\ export_name record = nm
    /\ export_from record = Some from
    /\ export_id record = Some id
    /\ (s = nm -> export_as record = None)
    /\ (s <> nm -> export_as record = Some s)
    /\ readModuleExports (linkCall object from [ObjectProperty key (StringLiteral s)] id)
       = Return (Some [record])
    /\ (Forall (fun other => isReturn (formatExport (Some from) (Some id) other) = true)
               bindings ->
        exists records,
          readModuleExports (linkCall object from bindings id) = Return (Some records)
          /\ records !! i = Some record
          /\ length records = length bindings)
    /\ readModuleExports (linkCall object from bindings id) <> Return None
    /\ forall records,
         readModuleExports (linkCall object from bindings id) = Return (Some records) ->
         records !! i = Some record.
Proof.
  intros Hobj Hkey Hi.
  exists (mkModuleExport nm re_export (Some id) (Some from)
            (if String.eqb s nm then None else Some s)).
  assert (Hfmt : formatExport (Some from) (Some id) (ObjectProperty key (StringLiteral s))
                 = Return (mkModuleExport nm re_export (Some id) (Some from)
                             (if String.eqb s nm then None else Some s))).
  { destruct Hkey as [-> | ->]; reflexivity. }
  destruct (readModuleExports_link_binding _ _ _ _ _ _ _ Hobj Hi Hfmt)
    as (Hone & Hall & Hread & Hlookup).
  split; [exact Hfmt|]. split_and!; try done.
  - intros ->. simpl. by rewrite String.eqb_refl.
  - intros Hne. simpl. destruct (String.eqb_spec s nm); congruence.
Qed.

Lemma link_string_binding_witness :
  exists record,
    formatExport (Some "meteor/meteor") (Some (number "0"))
      (ObjectProperty (Identifier "Meteor") (StringLiteral "MyMeteor")) = Return record
    /\ export_type record = re_export
    /\ export_name record = "Meteor"
    /\ export_from record = Some "meteor/meteor"
    /\ export_id record = Some (number "0")
    /\ ("MyMeteor" = "Meteor" -> export_as record = None)
    /\ ("MyMeteor" <> "Meteor" -> export_as record = Some "MyMeteor")
    /\ readModuleExports
         (linkCall "module1" "meteor/meteor"
            [ObjectProperty (Identifier "Meteor") (StringLiteral "MyMeteor")] (number "0"))
       = Return (Some [record])
    /\ (exists records,
          readModuleExports
            (linkCall "module1" "meteor/meteor"
               [ObjectProperty (Identifier "Tracker") (StringLiteral "Tracker");
                ObjectProperty (Identifier "Meteor") (StringLiteral "MyMeteor")]
               (number "0"))
          = Return (Some records)
          /\ records !! 1%nat = Some record
          /\ length records = 2%nat)
    /\ readModuleExports
         (linkCall "module1" "meteor/meteor"
            [ObjectProperty (Identifier "Tracker") (StringLiteral "Tracker");
             ObjectProperty (Identifier "Meteor") (StringLiteral "MyMeteor")] (number "0"))
       <> Return None
    /\ forall records,
         readModuleExports
           (linkCall "module1" "meteor/meteor"
              [ObjectProperty (Identifier "Tracker") (StringLiteral "Tracker");
               ObjectProperty (Identifier "Meteor") (StringLiteral "MyMeteor")]
              (number "0"))
           = Return (Some records) ->
         records !! 1%nat = Some record.
Proof.
  destruct (link_string_binding "module1" "meteor/meteor" (number "0")
              [ObjectProperty (Identifier "Tracker") (StringLiteral "Tracker");
               ObjectProperty (Identifier "Meteor") (StringLiteral "MyMeteor")]
              1 (Identifier "Meteor") "Meteor" "MyMeteor")
    as (record & Hfmt & Htype & Hname & Hfrom & Hid & Hsame & Hother & Hone & Hall
        & Hread & Hlookup).
  - reflexivity.
  - left. reflexivity.
  - reflexivity.
  - exists record. split_and!; try assumption.
    apply Hall. repeat constructor.
Defined.

(** C4. A binding of [module.link] written as an object method gives a
    global binding, never a re-export, whatever its kind and name.  The
    call on this binding yields exactly that record, and in a call with
    several bindings the record takes the binding's place in the list the
    statement yields. *)
Theorem link_method_binding (object from : string) (id : Number) (bindings : list Node)
    (i : nat) (kind : string) (key : Node) (nm : string) (params : list Node)
    (body : Node) :
  isModuleBinding object = true ->
  key = Identifier nm \/ key = StringLiteral nm ->
  bindings !! i = Some (ObjectMethod kind key params body) ->
  exists record,
    formatExport (Some from) (Some id) (ObjectMethod kind key params body)
      = Return record
    /\ export_type record = global_binding
    /\ export_type record <> re_export
    /\ export_name record = nm
    /\ export_from record = Some from
    /\ export_id record = Some id
    /\ readModuleExports (linkCall object from [ObjectMethod kind key params body] id)
       = Return (Some [record])
    /\ (Forall (fun other => isReturn (formatExport (Some from) (Some id) other) = true)
               bindings ->
        exists records,
          readModuleExports (linkCall object from bindings id) = Return (Some records)
          /\ records !! i = Some record
          /\ length records = length bindings)
    /\ readModuleExports (linkCall object from bindings id) <> Return None
    /\ forall records,
         readModuleExports (linkCall object from bindings id) = Return (Some records) ->
         records !! i = Some record.
Proof.
  intros Hobj Hkey Hi.
  exists (mkModuleExport nm global_binding (Some id) (Some from) None).
  assert (Hfmt : formatExport (Some from) (Some id) (ObjectMethod kind key params body)
                 = Return (mkModuleExport nm global_binding (Some id) (Some from) None)).
  { destruct Hkey as [-> | ->]; reflexivity. }
  destruct (readModuleExports_link_binding _ _ _ _ _ _ _ Hobj Hi Hfmt)
    as (Hone & Hall & Hread & Hlookup).
  split; [exact Hfmt|]. split_and!; done.
Qed.

Lemma link_method_binding_witness :
  exists record,
    formatExport (Some "./isPlainObject") (Some (number "0"))
      (ObjectMethod "method" (Identifier "isPlainObject") [Identifier "v"]
         (BlockStatement [])) = Return record
    /\ export_type record = global_binding
    /\ export_type record <> re_export
    /\ export_name record = "isPlainObject"
    /\ export_from record = Some "./isPlainObject"
    /\ export_id record = Some (number "0")
    /\ readModuleExports
         (linkCall "module" "./isPlainObject"
            [ObjectMethod "method" (Identifier "isPlainObject") [Identifier "v"]
               (BlockStatement [])] (number "0"))
       = Return (Some [record])
    /\ (exists records,
          readModuleExports
            (linkCall "module" "./isPlainObject"
               [ObjectMethod "method" (Identifier "isPlainObject") [Identifier "v"]
                  (BlockStatement [])] (number "0"))
          = Return (Some records)
          /\ records !! 0%nat = Some record
          /\ length records = 1%nat)
    /\ readModuleExports
         (linkCall "module" "./isPlainObject"
            [ObjectMethod "method" (Identifier "isPlainObject") [Identifier "v"]
               (BlockStatement [])] (number "0"))
       <> Return None
    /\ forall records,
         readModuleExports
           (linkCall "module" "./isPlainObject"
              [ObjectMethod "method" (Identifier "isPlainObject") [Identifier "v"]
                 (BlockStatement [])] (number "0"))
           = Return (Some records) ->
         records !! 0%nat = Some record.
Proof.
  destruct (link_method_binding "module" "./isPlainObject" (number "0")
              [ObjectMethod "method" (Identifier "isPlainObject") [Identifier "v"]
                 (BlockStatement [])]
              0 "method" (Identifier "isPlainObject") "isPlainObject" [Identifier "v"]
              (BlockStatement []))
    as (record & Hfmt & Htype & Hnot & Hname & Hfrom & Hid & Hone & Hall & Hread
        & Hlookup).
  - reflexivity.
  - left. reflexivity.
  - reflexivity.
  - exists record. split_and!; try assumption.
    apply Hall. repeat constructor.
Defined.

(** ** The package scope *)

Lemma getKey_propertyKey (property : Node) (k : string) :
  propertyKey property = Some k -> getKey property = Return k.
Proof.
  destruct property as [| | | | | | | |key ?|? key ? ?| | | | | | | | | | | | |]; try done;
    destruct key; try done; unfold getKey; simpl; congruence.
Qed.

Lemma packageScope_keys (properties : list Node) (keys acc : list string) :
  mapM propertyKey properties = Some keys ->
  forEach (fun property exports =>
             match property with
             | SpreadElement _ =>
                 Throw (ModuleExportsError
                          "Unexpected property type received for package-scope exports!"
                          property)
             | _ => key ← getKey property; Return (exports ++ [key])
             end) properties acc
  = Return (acc ++ keys).
Proof.
  rewrite mapM_Some. intros Hkeys. revert acc.
  induction Hkeys as [|p k ps ks Hp _ IH]; intros acc; simpl.
  - by rewrite app_nil_r.
  - pose proof (getKey_propertyKey _ _ Hp) as Hget.
    destruct p; try done; rewrite Hget; simpl; rewrite IH, <- app_assoc; done.
Qed.

Lemma parseMeteorInstall_other (node : Node) :
  isMeteorInstall node = false -> parseMeteorInstall node = Return None.
Proof.
  destruct node; try done. unfold parseMeteorInstall. by intros ->.
Qed.

Lemma parsePackageScope_other (node : Node) :
  isPackageDefine node = false -> parsePackageScope node = Return None.
Proof.
  destruct node; try done. unfold parsePackageScope. by intros ->.
Qed.

(** C5, as the code has it.  A [Package._define] call with two
    arguments, a name other than [__proto__] and an object literal, is
    read as the package-scope exports: the keys of the object literal, in
    order, are stored under the name, and the module list stays as it
    was. *)
Theorem define_two_arguments (nm : string) (properties : list Node)
    (keys : list string) (result : ParsedPackage) :
  mapM propertyKey properties = Some keys ->
  nm <> "__proto__" ->
  parsePackageScope (defineCall [StringLiteral nm; ObjectExpression properties])
    = Return (Some (mkPackageExport nm keys))
  /\ exists result',
       enter (defineCall [StringLiteral nm; ObjectExpression properties]) result
         = Return result'
       /\ packageScopeExports result' = <[nm := keys]> (packageScopeExports result)
       /\ packageScopeExports result' !! nm = Some keys
       /\ modules result' = modules result.
Proof.
  intros Hkeys Hnm.
  assert (Hscope : parsePackageScope
                     (defineCall [StringLiteral nm; ObjectExpression properties])
                   = Return (Some (mkPackageExport nm keys))).
  { unfold parsePackageScope, defineCall. simpl.
    by rewrite (packageScope_keys _ _ [] Hkeys). }
  split; [exact Hscope|].
  unfold enter. rewrite Hscope. simpl.
  eexists. split; [reflexivity|]. simpl. split_and!; [|by apply lookup_setProperty_eq|done].
  by apply setProperty_key.
Qed.

Lemma define_two_arguments_witness :
  parsePackageScope
    (defineCall [StringLiteral "meteor";
                 ObjectExpression
                   [ObjectProperty (Identifier "Meteor") (Identifier "Meteor");
                    ObjectProperty (Identifier "global") (Identifier "global");
                    ObjectProperty (Identifier "meteorEnv") (Identifier "meteorEnv")]])
    = Return (Some (mkPackageExport "meteor" ["Meteor"; "global"; "meteorEnv"]))
  /\ exists result',
       enter
         (defineCall [StringLiteral "meteor";
                      ObjectExpression
                        [ObjectProperty (Identifier "Meteor") (Identifier "Meteor");
                         ObjectProperty (Identifier "global") (Identifier "global");
                         ObjectProperty (Identifier "meteorEnv") (Identifier "meteorEnv")]])
         emptyPackage = Return result'
       /\ packageScopeExports result'
          = <["meteor" := ["Meteor"; "global"; "meteorEnv"]]> (packageScopeExports emptyPackage)
       /\ packageScopeExports result' !! "meteor" = Some ["Meteor"; "global"; "meteorEnv"]
       /\ modules result' = modules emptyPackage.
Proof.
  apply (define_two_arguments "meteor"
           [ObjectProperty (Identifier "Meteor") (Identifier "Meteor");
            ObjectProperty (Identifier "global") (Identifier "global");
            ObjectProperty (Identifier "meteorEnv") (Identifier "meteorEnv")]
           ["Meteor"; "global"; "meteorEnv"] emptyPackage).
  - reflexivity.
  - discriminate.
Defined.

(** C5, as stated, fails: for the name [__proto__] the call is read
    like any other, but the assignment
    [packageScopeExports["__proto__"] = exports] stores no entry; the
    package-scope exports stay empty and the package is rejected for its
    empty result. *)
Lemma define_proto_records_nothing :
  let call :=
    defineCall [StringLiteral "__proto__";
                ObjectExpression [ObjectProperty (Identifier "a") (Identifier "a")]] in
  parsePackageScope call = Return (Some (mkPackageExport "__proto__" ["a"]))
  /\ (exists result',
        enter call emptyPackage = Return result'
        /\ packageScopeExports result' !! "__proto__" = None
        /\ packageScopeExports result' = ∅)
  /\ parseMeteorPackage "proto.js" (File (Program [ExpressionStatement call]))
     = Throw (emptyResult (str "__proto__")).
Proof.
  split_and!.
  - vm_compute. reflexivity.
  - eexists. split_and!; vm_compute; reflexivity.
  - vm_compute. reflexivity.
Qed.

(** What [parseMeteorPackage] makes of a failed traversal: a
    [ModuleExportsError] is logged and replaced by a plain [ParserError];
    any other failure is passed on. *)
Lemma parseMeteorPackage_failed (filePath : string) (source : Node) (error : Error) :
  parseSource source = Throw error ->
  parseMeteorPackage filePath source
  = Throw match error with
          | ModuleExportsError _ _ =>
              ParserError "Failed to parse source code. See previous error."
          | _ => error
          end.
Proof.
  unfold parseMeteorPackage. intros ->. by destruct error.
Qed.

Lemma forEach_stuck {A S} (f : A -> S -> completion S) (l1 l2 : list A) (x : A) (s : S) :
  (forall s', exists e, f x s' = Throw e) ->
  exists e, forEach f (l1 ++ x :: l2) s = Throw e.
Proof.
  intros Hx. rewrite forEach_app.
  destruct (forEach f l1 s) as [s1|e]; simpl; [|eauto].
  destruct (Hx s1) as [e ->]. eauto.
Qed.

(** The exported function never fails with a [ModuleExportsError]: the
    one it catches is replaced, and its own two failures are plain
    [ParserError]s. *)
Lemma parseMeteorPackage_no_node (filePath : string) (source : Node)
    (message : string) (node : Node) :
  parseMeteorPackage filePath source <> Throw (ModuleExportsError message node).
Proof.
  unfold parseMeteorPackage.
  destruct (parseSource source) as [result|failure]; [|by destruct failure].
  destruct (truthy (name result)); simpl; [|done].
  by destruct (_ && _).
Qed.

(** C6, as the code has it.  A [Package._define] call whose third
    argument is present and is not an object literal makes the recognizer
    raise a [ModuleExportsError] that carries that argument.  The
    traversal of any tree containing the call is aborted: it fails with
    exactly this error when the nodes visited before the call were
    processed.  The exported extraction then fails too, but with a plain
    [ParserError] in place of the error of the traversal: it never hands
    out the error that carries the node. *)
Theorem define_third_argument_not_object (args : list Node) (third : Node)
    (source : Node) (before after : list Node) :
  args !! 2%nat = Some third ->
  isObjectExpression third = false ->
  preorder source = before ++ defineCall args :: after ->
  let violation :=
    ModuleExportsError "Unexpected type received for package-scope exports argument!"
      third in
  parsePackageScope (defineCall args) = Throw violation
  /\ (forall result, enter (defineCall args) result = Throw violation)
  /\ (exists error, parseSource source = Throw error)
  /\ (forall result, forEach enter before emptyPackage = Return result ->
        parseSource source = Throw violation)
  /\ (forall filePath, exists error, parseMeteorPackage filePath source = Throw error)
  /\ (forall filePath result, forEach enter before emptyPackage = Return result ->
        parseMeteorPackage filePath source
        = Throw (ParserError "Failed to parse source code. See previous error."))
  /\ (forall filePath message node,
        parseMeteorPackage filePath source <> Throw (ModuleExportsError message node)).
Proof.
  intros Hthird Hobj Hpre violation.
  assert (Hscope : parsePackageScope (defineCall args) = Throw violation).
  { unfold parsePackageScope, defineCall. simpl. rewrite Hthird.
    by destruct third. }
  assert (Henter : forall result, enter (defineCall args) result = Throw violation).
  { intros result. unfold enter. by rewrite Hscope. }
  assert (Hfail : exists error, parseSource source = Throw error).
  { unfold parseSource, traverse. rewrite Hpre. apply forEach_stuck. eauto. }
  assert (Hexact : forall result, forEach enter before emptyPackage = Return result ->
                     parseSource source = Throw violation).
  { intros result Hbefore. unfold parseSource, traverse. rewrite Hpre.
    eapply forEach_throw; eauto. }
  split_and!; try done.
  - intros filePath. destruct Hfail as [error Herror].
    rewrite (parseMeteorPackage_failed _ _ _ Herror). eauto.
  - intros filePath result Hbefore.
    by rewrite (parseMeteorPackage_failed _ _ _ (Hexact result Hbefore)).
  - intros filePath message node. apply parseMeteorPackage_no_node.
Qed.

Lemma define_third_argument_not_object_witness :
  let source :=
    File (Program
      [ExpressionStatement
         (defineCall [StringLiteral "check"; Identifier "exports";
                      Identifier "packageExports"])]) in
  let violation :=
    ModuleExportsError "Unexpected type received for package-scope exports argument!"
      (Identifier "packageExports") in
  parsePackageScope
    (defineCall [StringLiteral "check"; Identifier "exports"; Identifier "packageExports"])
    = Throw violation
  /\ (forall result,
        enter (defineCall [StringLiteral "check"; Identifier "exports";
                           Identifier "packageExports"]) result = Throw violation)
  /\ (exists error, parseSource source = Throw error)
  /\ (forall result,
        forEach enter
          [source;
           Program [ExpressionStatement
                      (defineCall [StringLiteral "check"; Identifier "exports";
                                   Identifier "packageExports"])];
           ExpressionStatement
             (defineCall [StringLiteral "check"; Identifier "exports";
                          Identifier "packageExports"])]
          emptyPackage = Return result ->
        parseSource source = Throw violation)
  /\ (forall filePath, exists error, parseMeteorPackage filePath source = Throw error)
  /\ (forall filePath result,
        forEach enter
          [source;
           Program [ExpressionStatement
                      (defineCall [StringLiteral "check"; Identifier "exports";
                                   Identifier "packageExports"])];
           ExpressionStatement
             (defineCall [StringLiteral "check"; Identifier "exports";
                          Identifier "packageExports"])]
          emptyPackage = Return result ->
        parseMeteorPackage filePath source
        = Throw (ParserError "Failed to parse source code. See previous error."))
  /\ (forall filePath message node,
        parseMeteorPackage filePath source <> Throw (ModuleExportsError message node)).
Proof.
  apply (define_third_argument_not_object
           [StringLiteral "check"; Identifier "exports"; Identifier "packageExports"]
           (Identifier "packageExports")
           (File (Program
              [ExpressionStatement
                 (defineCall [StringLiteral "check"; Identifier "exports";
                              Identifier "packageExports"])]))
           [File (Program
              [ExpressionStatement
                 (defineCall [StringLiteral "check"; Identifier "exports";
                              Identifier "packageExports"])]);
            Program [ExpressionStatement
                       (defineCall [StringLiteral "check"; Identifier "exports";
                                    Identifier "packageExports"])];
            ExpressionStatement
              (defineCall [StringLiteral "check"; Identifier "exports";
                           Identifier "packageExports"])]
           [MemberExpression (Identifier "Package") (Identifier "_define");
            Identifier "Package"; Identifier "_define";
            StringLiteral "check"; Identifier "exports"; Identifier "packageExports"]).
  - reflexivity.
  - reflexivity.
  - reflexivity.
Defined.

(** C6, as stated, fails: on a bundle whose [Package._define] call has an
    identifier as third argument, the traversal raises the error carrying
    that identifier, but what the extraction raises is the plain
    [ParserError], which has a message and no node. *)
Lemma extraction_error_drops_the_node :
  let source :=
    File (Program
      [ExpressionStatement
         (defineCall [StringLiteral "check"; Identifier "exports";
                      Identifier "packageExports"])]) in
  parseSource source
  = Throw (ModuleExportsError
             "Unexpected type received for package-scope exports argument!"
             (Identifier "packageExports"))
  /\ parseMeteorPackage "check.js" source
     = Throw (ParserError "Failed to parse source code. See previous error.")
  /\ forall message,
       parseMeteorPackage "check.js" source
       <> Throw (ModuleExportsError message (Identifier "packageExports")).
Proof.
  split_and!.
  - vm_compute. reflexivity.
  - vm_compute. reflexivity.
  - intros message. vm_compute. intros [=].
Qed.

(** ** Validation *)

(** What [enter] does at a node that is neither an installer call nor a
    [Package._define] call. *)
Lemma enter_other (node : Node) (result : ParsedPackage) :
  isMeteorInstall node = false -> isPackageDefine node = false ->
  enter node result
  = Return (mkParsedPackage (name result) (modules result)
              (orElse (readMainModulePath node) (mainModulePath result))
              (packageScopeExports result)).
Proof.
  intros Hinstall Hdefine. unfold enter.
  by rewrite (parsePackageScope_other _ Hdefine), (parseMeteorInstall_other _ Hinstall).
Qed.

Lemma forEach_enter_other (nodes : list Node) (result : ParsedPackage) :
  (forall node, node ∈ nodes ->
     isMeteorInstall node = false /\ isPackageDefine node = false) ->
  exists result',
    forEach enter nodes result = Return result'
    /\ name result' = name result
    /\ modules result' = modules result
    /\ packageScopeExports result' = packageScopeExports result.
Proof.
  revert result. induction nodes as [|node nodes IH]; intros result Hnodes; simpl.
  - eauto.
  - destruct (Hnodes node) as [Hinstall Hdefine]; [left|].
    rewrite (enter_other _ _ Hinstall Hdefine).
    destruct (IH (mkParsedPackage (name result) (modules result)
                    (orElse (readMainModulePath node) (mainModulePath result))
                    (packageScopeExports result))) as (r & Hr & ? & ? & ?).
    { intros n Hn. apply Hnodes. by right. }
    exists r. by rewrite Hr.
Qed.

(** The empty-result failure is what a package with a name and nothing
    else ends in. *)
Lemma parseMeteorPackage_empty (filePath : string) (source : Node)
    (result : ParsedPackage) :
  parseSource source = Return result ->
  truthy (name result) = true ->
  modules result = ∅ -> packageScopeExports result = ∅ ->
  parseMeteorPackage filePath source = Throw (emptyResult (name result)).
Proof.
  unfold parseMeteorPackage. intros -> -> -> ->. reflexivity.
Qed.

(** C2, as the code has it.  A tree with neither an installer call nor a
    [Package._define] call never gets a name, and the name is checked
    first: the extraction fails with the missing-name error, which is not
    the empty-result error. *)
Theorem neither_call_missing_name (filePath : string) (source : Node) :
  (forall node, node ∈ preorder source ->
     isMeteorInstall node = false /\ isPackageDefine node = false) ->
  parseMeteorPackage filePath source = Throw (missingName filePath)
  /\ forall nm, parseMeteorPackage filePath source <> Throw (emptyResult nm).
Proof.
  intros Hnodes.
  destruct (forEach_enter_other (preorder source) emptyPackage Hnodes)
    as (result & Hresult & Hname & _).
  assert (Hfail : parseMeteorPackage filePath source = Throw (missingName filePath)).
  { unfold parseMeteorPackage, parseSource, traverse. rewrite Hresult, Hname.
    reflexivity. }
  split; [exact Hfail|].
  intros nm. rewrite Hfail. unfold missingName, emptyResult.
  intros [=].
Qed.

Lemma neither_call_missing_name_witness :
  parseMeteorPackage "ostrio_cookies.js"
    (File (Program [ExpressionStatement (StringLiteral "use strict")]))
    = Throw (missingName "ostrio_cookies.js")
  /\ forall nm,
       parseMeteorPackage "ostrio_cookies.js"
         (File (Program [ExpressionStatement (StringLiteral "use strict")]))
       <> Throw (emptyResult nm).
Proof.
  apply (neither_call_missing_name "ostrio_cookies.js"
           (File (Program [ExpressionStatement (StringLiteral "use strict")]))).
  intros node Hnode. simpl in Hnode.
  repeat (apply elem_of_cons in Hnode as [-> | Hnode]; [split; reflexivity|]).
  by apply elem_of_nil in Hnode.
Defined.

(** C2, as stated, fails: a bundle with a main-module declaration and no
    installer or [Package._define] call is rejected for its missing name,
    not for its empty result. *)
Lemma neither_call_not_empty_result :
  let source :=
    File (Program
      [VariableDeclaration "var"
         [exportsRequire "/node_modules/meteor/test:lazy/index.js"]]) in
  forallb (fun node => negb (isMeteorInstall node) && negb (isPackageDefine node))
          (preorder source) = true
  /\ parseSource source
     = Return (mkParsedPackage (str "") ∅ "/node_modules/meteor/test:lazy/index.js" ∅)
  /\ parseMeteorPackage "test_lazy.js" source = Throw (missingName "test_lazy.js")
  /\ forall nm, parseMeteorPackage "test_lazy.js" source <> Throw (emptyResult nm).
Proof.
  split_and!.
  - vm_compute. reflexivity.
  - vm_compute. reflexivity.
  - vm_compute. reflexivity.
  - intros nm. vm_compute. intros [=].
Qed.

(** ** The main module path *)

Lemma enter_mainModulePath (node : Node) (result result' : ParsedPackage) :
  enter node result = Return result' ->
  mainModulePath result' = orElse (readMainModulePath node) (mainModulePath result).
Proof.
  unfold enter.
  destruct (parsePackageScope node) as [[scope|]|]; simpl; try done;
    destruct (parseMeteorInstall node) as [[install|]|]; simpl; try done;
    by intros [= <-].
Qed.

Lemma enter_total (node : Node) (result : ParsedPackage) :
  isReturn (parsePackageScope node) = true ->
  isReturn (parseMeteorInstall node) = true ->
  exists result', enter node result = Return result'.
Proof.
  unfold enter.
  destruct (parsePackageScope node) as [[scope|]|]; simpl; try done;
    destruct (parseMeteorInstall node) as [[install|]|]; simpl; try done; eauto.
Qed.

Lemma forEach_enter_total (nodes : list Node) (result : ParsedPackage) :
  (forall node, node ∈ nodes ->
     isReturn (parsePackageScope node) = true
     /\ isReturn (parseMeteorInstall node) = true) ->
  exists result', forEach enter nodes result = Return result'.
Proof.
  revert result. induction nodes as [|node nodes IH]; intros result Hnodes; simpl.
  - eauto.
  - destruct (Hnodes node) as [Hscope Hinstall]; [left|].
    destruct (enter_total node result Hscope Hinstall) as [r ->].
    apply IH. intros n Hn. apply Hnodes. by right.
Qed.

Lemma forEach_enter_mainModulePath (nodes : list Node) (result result' : ParsedPackage) :
  forEach enter nodes result = Return result' ->
  (forall node path, node ∈ nodes -> readMainModulePath node = Some path -> path = "") ->
  mainModulePath result' = mainModulePath result.
Proof.
  revert result. induction nodes as [|node nodes IH]; intros result Hrun Hnone;
    simpl in Hrun.
  - by injection Hrun as <-.
  - destruct (enter node result) as [r|] eqn:Henter; [|done].
    rewrite (IH r Hrun); [|intros n p Hn; apply Hnone; by right].
    rewrite (enter_mainModulePath _ _ _ Henter).
    destruct (readMainModulePath node) as [path|] eqn:Hpath; [|done].
    by rewrite (Hnone node path (list_elem_of_here _ _) Hpath).
Qed.

(** C8, as the code has it.  The recognizer looks at every declarator the
    traversal visits, at any depth, and keeps an earlier path when the
    literal is empty: the main module path is the literal of the last
    visited [exports = require("<path>")] declarator with a non-empty
    literal.  The declarators themselves never make the traversal fail. *)
Theorem last_main_module_declaration (source : Node) (before after : list Node)
    (node : Node) (path : string) :
  preorder source = before ++ node :: after ->
  readMainModulePath node = Some path ->
  path <> "" ->
  (forall later path', later ∈ after ->
     readMainModulePath later = Some path' -> path' = "") ->
  (forall visited, visited ∈ preorder source ->
     isReturn (parsePackageScope visited) = true
     /\ isReturn (parseMeteorInstall visited) = true) ->
  exists result, parseSource source = Return result /\ mainModulePath result = path.
Proof.
  intros Hpre Hnode Hpath Hafter Hok.
  destruct (forEach_enter_total (preorder source) emptyPackage Hok) as [result Hrun].
  exists result. split; [exact Hrun|].
  rewrite Hpre, forEach_app in Hrun.
  destruct (forEach enter before emptyPackage) as [r1|]; [|done].
  simpl in Hrun. destruct (enter node r1) as [r2|] eqn:Henter; [|done].
  rewrite (forEach_enter_mainModulePath _ _ _ Hrun Hafter).
  rewrite (enter_mainModulePath _ _ _ Henter), Hnode. simpl.
  by destruct (String.eqb_spec path "").
Qed.

Lemma last_main_module_declaration_witness :
  exists result,
    parseSource
      (File (Program
         [VariableDeclaration "var" [exportsRequire "/node_modules/meteor/check/old.js"];
          VariableDeclaration "var" [exportsRequire "/node_modules/meteor/check/match.js"]]))
    = Return result
    /\ mainModulePath result = "/node_modules/meteor/check/match.js".
Proof.
  apply (last_main_module_declaration
           (File (Program
              [VariableDeclaration "var" [exportsRequire "/node_modules/meteor/check/old.js"];
               VariableDeclaration "var"
                 [exportsRequire "/node_modules/meteor/check/match.js"]]))
           [File (Program
              [VariableDeclaration "var" [exportsRequire "/node_modules/meteor/check/old.js"];
               VariableDeclaration "var"
                 [exportsRequire "/node_modules/meteor/check/match.js"]]);
            Program
              [VariableDeclaration "var" [exportsRequire "/node_modules/meteor/check/old.js"];
               VariableDeclaration "var"
                 [exportsRequire "/node_modules/meteor/check/match.js"]];
            VariableDeclaration "var" [exportsRequire "/node_modules/meteor/check/old.js"];
            exportsRequire "/node_modules/meteor/check/old.js";
            Identifier "exports";
            CallExpression (Identifier "require")
              [StringLiteral "/node_modules/meteor/check/old.js"];
            Identifier "require";
            StringLiteral "/node_modules/meteor/check/old.js";
            VariableDeclaration "var" [exportsRequire "/node_modules/meteor/check/match.js"]]
           [Identifier "exports";
            CallExpression (Identifier "require")
              [StringLiteral "/node_modules/meteor/check/match.js"];
            Identifier "require";
            StringLiteral "/node_modules/meteor/check/match.js"]
           (exportsRequire "/node_modules/meteor/check/match.js")
           "/node_modules/meteor/check/match.js").
  - reflexivity.
  - reflexivity.
  - discriminate.
  - intros later path' Hlater. simpl in Hlater.
    repeat (apply elem_of_cons in Hlater as [-> | Hlater]; [discriminate|]).
    by apply elem_of_nil in Hlater.
  - intros visited Hvisited. simpl in Hvisited.
    repeat (apply elem_of_cons in Hvisited as [-> | Hvisited]; [split; reflexivity|]).
    by apply elem_of_nil in Hvisited.
Defined.

(** C8, as stated, fails: after two declarations at the top of the
    program, a declaration inside a function that is visited later takes
    over, so the result is not the literal of the last top-level one. *)
Lemma nested_declaration_overrides_top_level :
  let source :=
    File (Program
      [VariableDeclaration "var" [exportsRequire "/node_modules/meteor/check/old.js"];
       VariableDeclaration "var" [exportsRequire "/node_modules/meteor/check/match.js"];
       ExpressionStatement
         (CallExpression
            (FunctionExpression None []
               (BlockStatement
                  [VariableDeclaration "var" [exportsRequire "./isPlainObject"]]))
            [])]) in
  omap readMainModulePath (topLevelDeclarators source)
    = ["/node_modules/meteor/check/old.js"; "/node_modules/meteor/check/match.js"]
  /\ exists result,
       parseSource source = Return result
       /\ mainModulePath result = "./isPlainObject"
       /\ mainModulePath result <> "/node_modules/meteor/check/match.js".
Proof.
  split; [reflexivity|].
  eexists. split; [vm_compute; reflexivity|]. split; [reflexivity|]. simpl. by intros [=].
Qed.

(** An empty literal does not count as a path either: the earlier value
    stays. *)
Lemma empty_literal_keeps_earlier_path :
  exists result,
    parseSource
      (File (Program
         [VariableDeclaration "var" [exportsRequire "/node_modules/meteor/check/match.js"];
          VariableDeclaration "var" [exportsRequire ""]]))
    = Return result
    /\ mainModulePath result = "/node_modules/meteor/check/match.js".
Proof.
  eexists. split; [vm_compute; reflexivity|]. reflexivity.
Qed.

(** ** The package name *)

Lemma parseMeteorInstall_Some (node : Node) (install : MeteorInstall) :
  parseMeteorInstall node = Return (Some install) ->
  isMeteorInstall node = true /\ isPackageDefine node = false.
Proof.
  intros Hinstall.
  destruct (isMeteorInstall node) eqn:His.
  - split; [done|]. destruct node as [| | | | | | | | | | | | | | | | | |callee ?| | | |]; try done.
    by destruct callee.
  - by rewrite (parseMeteorInstall_other _ His) in Hinstall.
Qed.

Lemma parsePackageScope_Some (node : Node) (scope : PackageExport) :
  parsePackageScope node = Return (Some scope) ->
  isPackageDefine node = true /\ isMeteorInstall node = false
  /\ readMainModulePath node = None.
Proof.
  intros Hscope.
  destruct (isPackageDefine node) eqn:His.
  - split; [done|]. destruct node as [| | | | | | | | | | | | | | | | | |callee ?| | | |]; try done.
    by destruct callee.
  - by rewrite (parsePackageScope_other _ His) in Hscope.
Qed.

(** An installer call replaces the name, whatever it was. *)
Lemma enter_install (node : Node) (install : MeteorInstall) (result : ParsedPackage) :
  parseMeteorInstall node = Return (Some install) ->
  enter node result
  = Return (mkParsedPackage (install_name install) (install_modules install)
              (orElse (readMainModulePath node) (mainModulePath result))
              (packageScopeExports result)).
Proof.
  intros Hinstall. destruct (parseMeteorInstall_Some _ _ Hinstall) as [_ Hdefine].
  unfold enter. by rewrite (parsePackageScope_other _ Hdefine), Hinstall.
Qed.

(** A [Package._define] call gives the name only while there is none. *)
Lemma enter_define (node : Node) (scope : PackageExport) (result : ParsedPackage) :
  parsePackageScope node = Return (Some scope) ->
  enter node result
  = Return (mkParsedPackage
              (if truthy (name result) then name result else str (scope_name scope))
              (modules result) (mainModulePath result)
              (setProperty (scope_name scope) (scope_exports scope)
                 (packageScopeExports result))).
Proof.
  intros Hscope. destruct (parsePackageScope_Some _ _ Hscope) as (_ & Hinstall & Hpath).
  unfold enter. by rewrite Hscope, (parseMeteorInstall_other _ Hinstall), Hpath.
Qed.

Lemma enter_name_kept (node : Node) (result result' : ParsedPackage) :
  isMeteorInstall node = false ->
  enter node result = Return result' ->
  truthy (name result) = true ->
  name result' = name result.
Proof.
  intros Hinstall Henter Hname. unfold enter in Henter.
  rewrite (parseMeteorInstall_other _ Hinstall) in Henter.
  destruct (parsePackageScope node) as [[scope|]|]; simpl in Henter; try done;
    injection Henter as <-; simpl; by rewrite ?Hname.
Qed.

Lemma forEach_enter_name_kept (nodes : list Node) (result result' : ParsedPackage) :
  (forall node, node ∈ nodes -> isMeteorInstall node = false) ->
  forEach enter nodes result = Return result' ->
  truthy (name result) = true ->
  name result' = name result.
Proof.
  revert result. induction nodes as [|node nodes IH]; intros result Hnodes Hrun Hname;
    simpl in Hrun.
  - by injection Hrun as <-.
  - destruct (enter node result) as [r|] eqn:Henter; [|done].
    assert (Hr : name r = name result).
    { eapply enter_name_kept; eauto. apply Hnodes. left. }
    rewrite <- Hr. apply IH; [|done|by rewrite Hr].
    intros n Hn. apply Hnodes. by right.
Qed.

Lemma forEach_enter_unnamed (nodes : list Node) (result result' : ParsedPackage) :
  (forall node, node ∈ nodes ->
     isMeteorInstall node = false /\ parsePackageScope node = Return None) ->
  forEach enter nodes result = Return result' ->
  name result' = name result.
Proof.
  revert result. induction nodes as [|node nodes IH]; intros result Hnodes Hrun;
    simpl in Hrun.
  - by injection Hrun as <-.
  - destruct (Hnodes node) as [Hinstall Hscope]; [left|].
    unfold enter in Hrun at 1.
    rewrite Hscope, (parseMeteorInstall_other _ Hinstall) in Hrun. simpl in Hrun.
    rewrite (IH _ (fun n Hn => Hnodes n (list_elem_of_further _ _ _ Hn)) Hrun). done.
Qed.

(** C9, as the code has it.  An installer call replaces whatever name
    was recorded, and a [Package._define] call gives the name only while
    it is empty.  So the name of the result is the package key of the
    last installer call visited, which no [Package._define] call before
    or after it changes once that key is a name, that is, not empty;
    when that key gives no name, the next [Package._define] call that
    has one does; and with no installer call at all it is the name of
    the first [Package._define] call that has one. *)
Theorem package_name_precedence (source : Node) (before after : list Node)
    (node : Node) (result : ParsedPackage) :
  preorder source = before ++ node :: after ->
  parseSource source = Return result ->
  (forall call install current,
     parseMeteorInstall call = Return (Some install) ->
     exists next, enter call current = Return next /\ name next = install_name install)
  /\ (forall call scope current,
        parsePackageScope call = Return (Some scope) ->
        exists next,
          enter call current = Return next
          /\ name next = if truthy (name current) then name current
                         else str (scope_name scope))
  /\ (forall install,
        parseMeteorInstall node = Return (Some install) ->
        truthy (install_name install) = true ->
        (forall later, later ∈ after -> isMeteorInstall later = false) ->
        name result = install_name install)
  /\ (forall scope,
        parsePackageScope node = Return (Some scope) ->
        scope_name scope <> "" ->
        (forall visited, visited ∈ preorder source -> isMeteorInstall visited = false) ->
        (forall earlier, earlier ∈ before -> parsePackageScope earlier = Return None) ->
        name result = str (scope_name scope))
  /\ (forall install between call scope rest,
        parseMeteorInstall node = Return (Some install) ->
        truthy (install_name install) = false ->
        after = between ++ call :: rest ->
        (forall visited, visited ∈ between ->
           isMeteorInstall visited = false /\ parsePackageScope visited = Return None) ->
        parsePackageScope call = Return (Some scope) ->
        scope_name scope <> "" ->
        (forall later, later ∈ rest -> isMeteorInstall later = false) ->
        name result = str (scope_name scope)).
Proof.
  intros Hpre Hrun. unfold parseSource, traverse in Hrun.
  rewrite Hpre, forEach_app in Hrun.
  destruct (forEach enter before emptyPackage) as [r1|] eqn:Hbefore; [|done].
  simpl in Hrun. destruct (enter node r1) as [r2|] eqn:Henter; [|done].
  split_and!.
  - intros call install current Hinstall. rewrite (enter_install _ _ _ Hinstall). eauto.
  - intros call scope current Hscope. rewrite (enter_define _ _ _ Hscope). eauto.
  - intros install Hinstall Hname Hafter.
    rewrite (enter_install _ _ _ Hinstall) in Henter. injection Henter as <-.
    by rewrite (forEach_enter_name_kept _ _ _ Hafter Hrun).
  - intros scope Hscope Hname Hnone Hbeforenone.
    assert (Hr1 : name r1 = str "").
    { apply (forEach_enter_unnamed _ _ _) in Hbefore; [done|].
      intros n Hn. split; [|by apply Hbeforenone].
      apply Hnone. rewrite Hpre. apply elem_of_app. by left. }
    rewrite (enter_define _ _ _ Hscope), Hr1 in Henter. injection Henter as <-.
    assert (Htruthy : truthy (str (scope_name scope)) = true).
    { simpl. by destruct (String.eqb_spec (scope_name scope) ""). }
    assert (Hafter : forall later, later ∈ after -> isMeteorInstall later = false).
    { intros n Hn. apply Hnone. rewrite Hpre. apply elem_of_app. right. by right. }
    by rewrite (forEach_enter_name_kept _ _ _ Hafter Hrun).
  - intros install between call scope rest Hinstall Hfalsy -> Hbetween Hscope Hname
      Hrest.
    rewrite (enter_install _ _ _ Hinstall) in Henter. injection Henter as <-.
    rewrite forEach_app in Hrun.
    destruct (forEach enter between _) as [r3|] eqn:Hmiddle; [|done].
    simpl in Hrun. destruct (enter call r3) as [r4|] eqn:Hcall; [|done].
    apply forEach_enter_unnamed in Hmiddle; [|done]. simpl in Hmiddle.
    rewrite (enter_define _ _ _ Hscope), Hmiddle, Hfalsy in Hcall.
    injection Hcall as <-.
    assert (Htruthy : truthy (str (scope_name scope)) = true).
    { simpl. by destruct (String.eqb_spec (scope_name scope) ""). }
    by rewrite (forEach_enter_name_kept _ _ _ Hrest Hrun).
Qed.

Lemma forallb_elem_of {A} (f : A -> bool) (l : list A) :
  forallb f l = true -> forall x, x ∈ l -> f x = true.
Proof.
  intros Hall x Hx. rewrite forallb_forall in Hall. apply Hall.
  by apply list_elem_of_In.
Qed.

Lemma package_name_precedence_witness :
  (exists result,
     parseSource installerBetweenDefines = Return result /\ name result = str "check")
  /\ (exists result,
        parseSource twoDefines = Return result /\ name result = str "meteor")
  /\ (exists result,
        parseSource unquotedPackageKey = Return result /\ name result = str "later").
Proof.
  split_and!.
  - assert (Hrun : parseSource installerBetweenDefines
                   = Return (mkParsedPackage (str "check") {["match.js" := []]} ""
                               (<["later" := ["b"]]> {["earlier" := ["a"]]})))
      by (vm_compute; reflexivity).
    eexists. split; [exact Hrun|].
    refine (proj1 (proj2 (proj2 (package_name_precedence installerBetweenDefines
                     (take 13 (preorder installerBetweenDefines))
                     (drop 14 (preorder installerBetweenDefines))
                     (installerCall (StringLiteral "check")
                        [ObjectProperty (StringLiteral "match.js") (moduleFunction [])] [])
                     _ _ Hrun)))
                  (mkMeteorInstall (str "check") {["match.js" := []]}) _ _ _).
    + vm_compute. reflexivity.
    + vm_compute. reflexivity.
    + reflexivity.
    + intros later Hlater.
      apply (forallb_elem_of (fun n => negb (isMeteorInstall n))) in Hlater;
        [by destruct (isMeteorInstall later)|].
      vm_compute. reflexivity.
  - assert (Hrun : parseSource twoDefines
                   = Return (mkParsedPackage (str "meteor") ∅ ""
                               (<["other" := ["b"]]> {["meteor" := ["Meteor"]]})))
      by (vm_compute; reflexivity).
    eexists. split; [exact Hrun|].
    refine (proj1 (proj2 (proj2 (proj2 (package_name_precedence twoDefines
                     (take 3 (preorder twoDefines)) (drop 4 (preorder twoDefines))
                     (defineCall [StringLiteral "meteor";
                                  ObjectExpression
                                    [ObjectProperty (Identifier "Meteor") (Identifier "Meteor")]])
                     _ _ Hrun))))
                  (mkPackageExport "meteor" ["Meteor"]) _ _ _ _).
    + vm_compute. reflexivity.
    + vm_compute. reflexivity.
    + discriminate.
    + intros visited Hvisited.
      apply (forallb_elem_of (fun n => negb (isMeteorInstall n))) in Hvisited;
        [by destruct (isMeteorInstall visited)|].
      vm_compute. reflexivity.
    + intros earlier Hearlier.
      apply (forallb_elem_of
               (fun n => match parsePackageScope n with
                         | Return None => true
                         | _ => false
                         end)) in Hearlier.
      * by destruct (parsePackageScope earlier) as [[]|].
      * vm_compute. reflexivity.
  - assert (Hrun : parseSource unquotedPackageKey
                   = Return (mkParsedPackage (str "later") {["match.js" := []]} ""
                               {["later" := ["b"]]}))
      by (vm_compute; reflexivity).
    eexists. split; [exact Hrun|].
    refine (proj2 (proj2 (proj2 (proj2 (package_name_precedence unquotedPackageKey
                     (take 3 (preorder unquotedPackageKey))
                     (drop 4 (preorder unquotedPackageKey))
                     (installerCall (Identifier "check")
                        [ObjectProperty (StringLiteral "match.js") (moduleFunction [])] [])
                     _ _ Hrun))))
                  (mkMeteorInstall undefined {["match.js" := []]})
                  (take 20 (drop 4 (preorder unquotedPackageKey)))
                  (defineCall [StringLiteral "later"; Identifier "exports";
                               ObjectExpression
                                 [ObjectProperty (Identifier "b") (Identifier "b")]])
                  (mkPackageExport "later" ["b"])
                  (drop 25 (preorder unquotedPackageKey)) _ _ _ _ _ _ _).
    + vm_compute. reflexivity.
    + vm_compute. reflexivity.
    + reflexivity.
    + vm_compute. reflexivity.
    + intros visited Hvisited.
      apply (forallb_elem_of
               (fun n => negb (isMeteorInstall n)
                         && match parsePackageScope n with
                            | Return None => true
                            | _ => false
                            end)) in Hvisited.
      * apply andb_prop in Hvisited as [Hinstall Hscope].
        split; [by destruct (isMeteorInstall visited)|].
        by destruct (parsePackageScope visited) as [[]|].
      * vm_compute. reflexivity.
    + vm_compute. reflexivity.
    + discriminate.
    + intros later Hlater.
      apply (forallb_elem_of (fun n => negb (isMeteorInstall n))) in Hlater;
        [by destruct (isMeteorInstall later)|].
      vm_compute. reflexivity.
Defined.

(** C9, as stated, fails: the name an installer call gives is the
    [value] of its package key, and a key written as an identifier has
    none.  The name is then still empty when the [Package._define] call
    is visited, which sets it: the final name is not the installer's
    key. *)
Lemma installer_key_without_value_yields :
  parseMeteorInstall
    (installerCall (Identifier "check")
       [ObjectProperty (StringLiteral "match.js") (moduleFunction [])] [])
  = Return (Some (mkMeteorInstall undefined {["match.js" := []]}))
  /\ exists result,
       parseSource unquotedPackageKey = Return result
       /\ name result = str "later"
       /\ name result <> str "check"
       /\ parseMeteorPackage "check.js" unquotedPackageKey = Return result.
Proof.
  split; [vm_compute; reflexivity|].
  eexists. split_and!.
  - vm_compute. reflexivity.
  - reflexivity.
  - simpl. intros [=].
  - vm_compute. reflexivity.
Qed.

(** ** Module bodies *)

Lemma collectExports_order (body : list Node) (yields : list (option (list ModuleExport)))
    (exportList : list ModuleExport) :
  Forall2 (fun statement exports => readModuleExports statement = Return exports)
          body yields ->
  collectExports readModuleExports body exportList
  = Return (exportList ++ concat (pushed <$> yields)).
Proof.
  intros Hbody. revert exportList.
  induction Hbody as [|statement exports body yields Hread _ IH]; intros exportList.
  - simpl. by rewrite app_nil_r.
  - unfold collectExports in *. simpl. rewrite Hread. simpl.
    destruct exports as [exports|]; simpl; rewrite IH; [by rewrite <- app_assoc|done].
Qed.

Lemma bodyReturns_yields (body : list Node) :
  bodyReturns body = true ->
  exists yields,
    Forall2 (fun statement exports => readModuleExports statement = Return exports)
            body yields
    /\ moduleExports body = concat (pushed <$> yields).
Proof.
  induction body as [|statement body IH]; simpl.
  - exists []. split; [constructor|done].
  - intros [Hs Hbody]%andb_prop. destruct (IH Hbody) as (yields & Hall & Heq).
    destruct (readModuleExports statement) as [exports|] eqn:Hread; [|done].
    exists (exports :: yields). split; [by constructor|].
    unfold moduleExports in *. simpl. by rewrite Heq.
Qed.

Lemma collectExports_returns (body : list Node) :
  bodyReturns body = true ->
  collectExports readModuleExports body [] = Return (moduleExports body).
Proof.
  intros Hbody. destruct (bodyReturns_yields body Hbody) as (yields & Hall & ->).
  by rewrite (collectExports_order _ _ _ Hall).
Qed.

(** ** The module tree *)

Lemma properties_ind (P : Node -> Prop) :
  (forall key value,
     (forall properties, value = ObjectExpression properties -> Forall P properties) ->
     P (ObjectProperty key value)) ->
  (forall node, (forall key value, node <> ObjectProperty key value) -> P node) ->
  forall node, P node.
Proof.
  intros Hproperty Hother. fix IH 1. intros node.
  destruct node as [| | | | | | | |key value| | | | | | | | | | | | | |];
    try (apply Hother; intros; discriminate).
  apply Hproperty.
  destruct value as [| | | | | | |properties| | | | | | | | | | | | | | |];
    try (by intros ? [=]).
  intros ? [= <-].
  induction properties as [|property properties IHproperties]; constructor.
  - apply IH.
  - apply IHproperties.
Qed.

Lemma append_assoc (a b c : string) : (a +:+ b) +:+ c = a +:+ (b +:+ c).
Proof.
  induction a as [|x a IH]; [done|].
  change (String x ((a +:+ b) +:+ c) = String x (a +:+ (b +:+ c))). by rewrite IH.
Qed.

Lemma leafPath_cons (key : string) (keys : list string) :
  keys <> [] -> leafPath (key :: keys) = key +:+ "/" +:+ leafPath keys.
Proof. by destruct keys. Qed.

Lemma fmap_flat_map {A B C} (f : B -> C) (g : A -> list B) (l : list A) :
  f <$> flat_map g l = flat_map (fun x => f <$> g x) l.
Proof.
  induction l as [|x l IH]; simpl; [done|]. by rewrite fmap_app, IH.
Qed.

Lemma flat_map_Forall_ext {A B} (f g : A -> list B) (l : list A) :
  Forall (fun x => f x = g x) l -> flat_map f l = flat_map g l.
Proof. induction 1 as [|x l Hx _ IH]; simpl; [done|by rewrite Hx, IH]. Qed.

Lemma leaves_keys (property : Node) (leaf : list string * list Node) :
  leaf ∈ leaves property -> leaf.1 <> [].
Proof.
  destruct property as [| | | | | | | |key value| | | | | | | | | | | | | |]; simpl;
    try by intros ?%elem_of_nil.
  destruct key; try by intros ?%elem_of_nil.
  destruct value as [| | | | | | | | | | |? ? body| | | | | | | | | | |]; try by intros ?%elem_of_nil.
  - intros (l & -> & _)%list_elem_of_fmap. done.
  - destruct body; try by intros ?%elem_of_nil.
    by intros ->%list_elem_of_singleton.
Qed.

(** Going down into the object under [key] is the same as prefixing the
    paths below it with [key] and a slash. *)
Lemma entries_nested (parentPath key : string) (properties : list Node) :
  flat_map (entries ((parentPath +:+ key) +:+ "/")) properties
  = entries parentPath (ObjectProperty (StringLiteral key) (ObjectExpression properties)).
Proof.
  unfold entries at 2. simpl. rewrite <- list_fmap_compose.
  rewrite fmap_flat_map. apply flat_map_Forall_ext, Forall_forall.
  intros property _. unfold entries. apply Forall_fmap_ext, Forall_forall.
  intros leaf Hleaf. simpl. f_equal.
  rewrite (leafPath_cons _ _ (leaves_keys _ _ Hleaf)).
  by rewrite !append_assoc.
Qed.

Lemma storeAll_app (l1 l2 : list (string * list ModuleExport)) (modules : ModuleList) :
  storeAll (l1 ++ l2) modules = storeAll l2 (storeAll l1 modules).
Proof. apply foldl_app. Qed.

Lemma forEach_storeAll {A} (f : A -> ModuleList -> completion ModuleList)
    (g : A -> list (string * list ModuleExport)) (l : list A) (modules : ModuleList) :
  Forall (fun x => forall modules, f x modules = Return (storeAll (g x) modules)) l ->
  forEach f l modules = Return (storeAll (flat_map g l) modules).
Proof.
  intros Hl. revert modules. induction Hl as [|x l Hx _ IH]; intros modules; simpl.
  - done.
  - by rewrite Hx, IH, storeAll_app.
Qed.

(** On a well-shaped module tree, [traverseModules] stores one entry per
    leaf, in the order of the leaves. *)
Lemma traverseModule_valid (property : Node) :
  validModule property = true ->
  forall parentPath modules,
    traverseModule property parentPath modules
    = Return (storeAll (entries parentPath property) modules).
Proof.
  induction property as [key value IH|node Hnode] using properties_ind.
  - destruct key as [| | |key| | | | | | | | | | | | | | | | | | |]; try done.
    destruct value as [| | | | | | |properties| | | |? ? body| | | | | | | | | | |]; try done.
    + intros Hvalid parentPath modules. simpl in Hvalid. simpl.
      rewrite <- entries_nested. apply forEach_storeAll.
      specialize (IH properties eq_refl).
      rewrite forallb_forall in Hvalid. rewrite Forall_forall in IH |- *.
      intros property Hproperty modules'. apply IH; [done|].
      apply Hvalid. by apply list_elem_of_In.
    + destruct body as [| | | | | | | | | | | | | | |body| | | | | | |]; try done.
      intros Hvalid parentPath modules. simpl in Hvalid. simpl.
      by rewrite (collectExports_returns _ Hvalid).
  - destruct node as [| | | | | | | |k v| | | | | | | | | | | | | |]; try done.
    by destruct (Hnode k v).
Qed.

Lemma traverseModules_valid (properties : list Node) (parentPath : string)
    (modules : ModuleList) :
  forallb validModule properties = true ->
  traverseModules properties parentPath modules
  = Return (storeAll (flat_map (entries parentPath) properties) modules).
Proof.
  intros Hvalid. apply forEach_storeAll. rewrite forallb_forall in Hvalid.
  apply Forall_forall. intros property Hproperty modules'.
  apply traverseModule_valid, Hvalid. by apply list_elem_of_In.
Qed.

Lemma parseMeteorInstall_valid (package : Node) (packageModules options : list Node) :
  forallb validModule packageModules = true ->
  parseMeteorInstall (installerCall package packageModules options)
  = Return (Some (mkMeteorInstall (keyValue package)
                    (storeAll (flat_map (entries "") packageModules) ∅))).
Proof.
  intros Hvalid. unfold parseMeteorInstall, installerCall. simpl.
  by rewrite (traverseModules_valid _ _ _ Hvalid).
Qed.

(** ** The module list as a map *)

Lemma storeAll_lookup_other (l : list (string * list ModuleExport))
    (modules : ModuleList) (path : string) :
  path ∉ l.*1 -> storeAll l modules !! path = modules !! path.
Proof.
  revert modules. induction l as [|[k v] l IH]; intros modules Hpath; simpl; [done|].
  apply not_elem_of_cons in Hpath as [Hne Hpath].
  rewrite (IH _ Hpath). by apply lookup_setProperty_ne.
Qed.

Lemma storeAll_lookup_last (l1 l2 : list (string * list ModuleExport))
    (modules : ModuleList) (path : string) (exports : list ModuleExport) :
  path ∉ l2.*1 -> path <> "__proto__" ->
  storeAll (l1 ++ (path, exports) :: l2) modules !! path = Some exports.
Proof.
  intros Hpath Hproto. rewrite storeAll_app. simpl.
  rewrite (storeAll_lookup_other _ _ _ Hpath). by apply lookup_setProperty_eq.
Qed.


Lemma storeAll_is_Some (l : list (string * list ModuleExport))
    (modules : ModuleList) (path : string) :
  is_Some (storeAll l modules !! path)
  <-> (path ∈ l.*1 /\ path <> "__proto__") \/ is_Some (modules !! path).
Proof.
  revert modules. induction l as [|[k v] l IH]; intros modules.
  - simpl. split; [by right|]. intros [[Hin _]|]; [|done]. by apply elem_of_nil in Hin.
  - change (storeAll ((k, v) :: l) modules) with (storeAll l (setProperty k v modules)).
    rewrite IH, fmap_cons, elem_of_cons. simpl. unfold setProperty.
    destruct (String.eqb_spec k "__proto__") as [->|Hk].
    + split; [intuition|]. intros [[[Heq|Hin] Hne]|Hsome];
        [congruence|by left|by right].
    + rewrite lookup_insert_is_Some. split.
      * intros [[Hin Hne]|[<-|[Hne Hsome]]]; [left|left|by right].
        -- split; [by right|done].
        -- split; [by left|done].
      * intros [[[->|Hin] Hne]|Hsome]; [right; by left|by left|].
        destruct (decide (k = path)) as [->|Hne]; right; [by left|by right].
Qed.

Lemma storeAll_size (l : list (string * list ModuleExport)) (modules : ModuleList) :
  NoDup l.*1 -> "__proto__" ∉ l.*1 ->
  (forall path, path ∈ l.*1 -> modules !! path = None) ->
  size (storeAll l modules) = (length l + size modules)%nat.
Proof.
  revert modules. induction l as [|[k v] l IH]; intros modules Hnodup Hproto Hfresh; simpl.
  - done.
  - apply NoDup_cons in Hnodup as [Hk Hnodup].
    apply not_elem_of_cons in Hproto as [Hne Hproto]. simpl in Hne.
    rewrite setProperty_key by done.
    rewrite IH; [|done|done|].
    + rewrite map_size_insert_None; [lia|]. apply Hfresh. left.
    + intros path Hpath. rewrite lookup_insert_ne; [apply Hfresh; by right|].
      intros ->. done.
Qed.

Lemma storeAll_size_le (l : list (string * list ModuleExport)) (modules : ModuleList) :
  (size (storeAll l modules) <= length l + size modules)%nat.
Proof.
  revert modules. induction l as [|[k v] l IH]; intros modules; [done|].
  specialize (IH (setProperty k v modules)).
  change (storeAll ((k, v) :: l) modules) with (storeAll l (setProperty k v modules)).
  rewrite length_cons. unfold setProperty in IH |- *.
  destruct (String.eqb k "__proto__"); [lia|].
  rewrite map_size_insert in IH. destruct (modules !! k); unfold id in IH; lia.
Qed.

Lemma entries_paths (packageModules : list Node) :
  (flat_map (entries "") packageModules).*1 = leafPaths packageModules.
Proof.
  unfold leafPaths. rewrite !fmap_flat_map. apply flat_map_ext. intros property.
  unfold entries. by rewrite <- list_fmap_compose.
Qed.

Lemma entries_length (packageModules : list Node) :
  length (flat_map (entries "") packageModules)
  = length (flat_map leaves packageModules).
Proof.
  rewrite <- (length_fmap fst), entries_paths. unfold leafPaths. by rewrite length_fmap.
Qed.

(** The entry of a leaf in the module list of a well-shaped installer
    call, when no later leaf has the same path. *)
Lemma entries_split (packageModules : list Node)
    (before after : list (list string * list Node)) (keys : list string)
    (body : list Node) :
  flat_map leaves packageModules = before ++ (keys, body) :: after ->
  flat_map (entries "") packageModules
  = ((fun leaf => (leafPath leaf.1, moduleExports leaf.2)) <$> before)
    ++ (leafPath keys, moduleExports body) ::
    ((fun leaf => (leafPath leaf.1, moduleExports leaf.2)) <$> after).
Proof.
  intros Hleaves.
  change (leafPath keys, moduleExports body)
    with ((fun leaf : list string * list Node =>
             (leafPath leaf.1, moduleExports leaf.2)) (keys, body)).
  rewrite <- fmap_cons, <- fmap_app, <- Hleaves. by rewrite fmap_flat_map.
Qed.

Lemma modules_lookup_leaf (packageModules : list Node)
    (before after : list (list string * list Node)) (keys : list string)
    (body : list Node) :
  flat_map leaves packageModules = before ++ (keys, body) :: after ->
  leafPath keys ∉ (fun leaf => leafPath leaf.1) <$> after ->
  leafPath keys <> "__proto__" ->
  storeAll (flat_map (entries "") packageModules) ∅ !! leafPath keys
  = Some (moduleExports body).
Proof.
  intros Hleaves Hlast Hproto. rewrite (entries_split _ _ _ _ _ Hleaves).
  apply storeAll_lookup_last; [|done]. by rewrite <- list_fmap_compose.
Qed.


(** C1, as the code has it.  On a well-shaped installer call the module
    list has an entry for every leaf module whose path is not [__proto__]
    and for nothing else, under the slash-joined keys on the way to the
    leaf; the entry holds the exports of the last leaf with that path.
    It has as many entries as there are leaves when the paths of the
    leaves are pairwise distinct and none is [__proto__], and never
    more. *)
Theorem module_paths (package : Node) (packageModules options : list Node) :
  forallb validModule packageModules = true ->
  exists install,
    parseMeteorInstall (installerCall package packageModules options)
      = Return (Some install)
    /\ install_name install = keyValue package
    /\ (forall path,
          is_Some (install_modules install !! path)
          <-> path ∈ leafPaths packageModules /\ path <> "__proto__")
    /\ (forall before keys body after,
          flat_map leaves packageModules = before ++ (keys, body) :: after ->
          leafPath keys ∉ (fun leaf => leafPath leaf.1) <$> after ->
          leafPath keys <> "__proto__" ->
          install_modules install !! leafPath keys = Some (moduleExports body))
    /\ (size (install_modules install) <= length (flat_map leaves packageModules))%nat
    /\ (NoDup (leafPaths packageModules) ->
        "__proto__" ∉ leafPaths packageModules ->
        size (install_modules install) = length (flat_map leaves packageModules)).
Proof.
  intros Hvalid. eexists. split; [by apply parseMeteorInstall_valid|]. simpl.
  split_and!.
  - done.
  - intros path. rewrite storeAll_is_Some, entries_paths, lookup_empty.
    split; [intros [?|[? [=]]]; done|by left].
  - intros before keys body after Hleaves Hlast Hproto.
    by apply (modules_lookup_leaf _ _ _ _ _ Hleaves Hlast).
  - etrans; [apply storeAll_size_le|]. rewrite entries_length, map_size_empty. lia.
  - intros Hnodup Hproto. rewrite storeAll_size.
    + rewrite entries_length, map_size_empty. lia.
    + by rewrite entries_paths.
    + by rewrite entries_paths.
    + intros path _. apply lookup_empty.
Qed.

Lemma module_paths_witness :
  exists install,
    parseMeteorInstall (installerCall (StringLiteral "test:ts-modules") nestedModules [])
      = Return (Some install)
    /\ install_name install = str "test:ts-modules"
    /\ (forall path,
          is_Some (install_modules install !! path)
          <-> path ∈ ["index.ts"; "subdirectory/module-in-subdirectory.ts"]
              /\ path <> "__proto__")
    /\ (forall before keys body after,
          flat_map leaves nestedModules = before ++ (keys, body) :: after ->
          leafPath keys ∉ (fun leaf => leafPath leaf.1) <$> after ->
          leafPath keys <> "__proto__" ->
          install_modules install !! leafPath keys = Some (moduleExports body))
    /\ (size (install_modules install) <= 2)%nat
    /\ (NoDup ["index.ts"; "subdirectory/module-in-subdirectory.ts"] ->
        "__proto__" ∉ ["index.ts"; "subdirectory/module-in-subdirectory.ts"] ->
        size (install_modules install) = 2%nat).
Proof.
  apply (module_paths (StringLiteral "test:ts-modules") nestedModules []).
  vm_compute. reflexivity.
Defined.

(** C1, as stated, fails: a file in a subdirectory and a file whose own
    name spells the same path are two leaves with one path.  The module
    list keeps a single entry, that of the leaf visited last. *)
Lemma colliding_paths_lose_a_module :
  forallb validModule collidingModules = true
  /\ length (flat_map leaves collidingModules) = 2%nat
  /\ leafPaths collidingModules = ["lib/index.js"; "lib/index.js"]
  /\ exists install,
       parseMeteorInstall (installerCall (StringLiteral "demo") collidingModules [])
         = Return (Some install)
       /\ size (install_modules install) = 1%nat
       /\ install_modules install
          = {["lib/index.js" := [mkModuleExport "Second" export None None None]]}.
Proof.
  split_and!; [vm_compute; reflexivity..|].
  eexists. split_and!; vm_compute; reflexivity.
Qed.

(** ** Order of the export records *)



(** ** Modules without exports *)







(** * Further properties of the parser *)

(** ** Induction on the size of a tree, and loops *)

Lemma preorder_length_elem (node : Node) (l : list Node) :
  node ∈ l -> (length (preorder node) <= length (flat_map preorder l))%nat.
Proof.
  induction l as [|x l IH]; [by intros ?%elem_of_nil|].
  intros [->|Hin]%elem_of_cons; simpl; rewrite length_app; [lia|].
  specialize (IH Hin). lia.
Qed.

Lemma node_size_ind (P : Node -> Prop) :
  (forall node,
     (forall smaller,
        (length (preorder smaller) < length (preorder node))%nat -> P smaller) ->
     P node) ->
  forall node, P node.
Proof.
  intros Hstep node.
  remember (length (preorder node)) as size eqn:Hsize. revert node Hsize.
  induction size as [size IH] using lt_wf_ind. intros node ->.
  apply Hstep. intros smaller Hlt. by apply (IH _ Hlt).
Qed.

Lemma forEach_invariant {A S} (f : A -> S -> completion S) (I : S -> Prop)
    (l : list A) (s s' : S) :
  (forall x t t', x ∈ l -> f x t = Return t' -> I t -> I t') ->
  forEach f l s = Return s' -> I s -> I s'.
Proof.
  revert s. induction l as [|x l IH]; intros s Hstep Hrun Hs; simpl in Hrun.
  - by injection Hrun as <-.
  - destruct (f x s) as [t|] eqn:Hx; [|done].
    apply (IH t); [|done|].
    + intros y u u' Hy. apply Hstep. by right.
    + eapply Hstep; [left|done..].
Qed.


Lemma mapArray_Forall {A B} (f : A -> completion B) (P : B -> Prop) (l : list A)
    (ys : list B) :
  (forall x y, x ∈ l -> f x = Return y -> P y) ->
  mapArray f l = Return ys -> Forall P ys.
Proof.
  revert ys. induction l as [|x l IH]; intros ys Hstep Hmap; simpl in Hmap.
  - injection Hmap as <-. constructor.
  - destruct (f x) as [y|] eqn:Hx; [|done].
    destruct (mapArray f l) as [zs|] eqn:Hl; [|done].
    injection Hmap as <-. constructor.
    + eapply Hstep; [left|done].
    + apply IH; [|done]. intros z w Hz. apply Hstep. by right.
Qed.


(** ** The shape of the export records *)

Lemma formatExport_wellFormed (link : option (string * Number)) (property : Node)
    (record : ModuleExport) :
  formatExport (fst <$> link) (snd <$> link) property = Return record ->
  wellFormedExport record = true.
Proof.
  unfold formatExport.
  destruct property as [| | | | | | | |key content|? key ? ?| | | | | | | | | | | | |];
    try done; (destruct (getKey _) as [nm|]; simpl; [|done]).
  - destruct link as [[from id]|]; simpl; [|by intros [= <-]].
    destruct content; try done. intros [= <-]. unfold wellFormedExport. simpl.
    by destruct (String.eqb value nm) eqn:Heq; simpl; rewrite ?Heq.
  - destruct link as [[from id]|]; simpl; by intros [= <-].
Qed.

Lemma formatExports_wellFormed (properties : list Node) (link : option (string * Number))
    (records : list ModuleExport) :
  formatExports properties (fst <$> link) (snd <$> link) = Return records ->
  Forall (fun record => wellFormedExport record = true) records.
Proof.
  apply mapArray_Forall. intros property record _. apply formatExport_wellFormed.
Qed.

Lemma readModuleCall_wellFormed (callee : Node) (args : list Node)
    (records : list ModuleExport) :
  readModuleCall callee args = Return (Some records) ->
  Forall (fun record => wellFormedExport record = true) records.
Proof.
  unfold readModuleCall.
  destruct callee as [| | | | | | | | | | | | | | | | | | |object property| | |]; try done.
  destruct object as [| |object| | | | | | | | | | | | | | | | | | | |]; try done.
  destruct property as [| |method| | | | | | | | | | | | | | | | | | | |]; try done.
  destruct (isModuleBinding object); simpl; [|done].
  destruct (String.eqb method "exportDefault").
  { destruct (args !! 0%nat) as [arg0|]; simpl; [|done].
    destruct arg0; try done. intros [= <-]. by repeat constructor. }
  destruct (String.eqb method "export").
  { destruct (args !! 0%nat) as [arg0|]; simpl; [|done].
    destruct arg0 as [| | | | | | |properties| | | | | | | | | | | | | | |]; try done.
    destruct (formatExports properties None None) as [exports|] eqn:Hformat; [|done].
    simpl. intros [= <-]. exact (formatExports_wellFormed properties None _ Hformat). }
  destruct (String.eqb method "link"); simpl; [|done].
  destruct (args !! 0%nat) as [arg0|]; simpl; [|done].
  destruct arg0 as [| | |from| | | | | | | | | | | | | | | | | | |]; try done.
  destruct (args !! 1%nat) as [arg1|]; simpl; [|done].
  destruct arg1 as [| | | | | | |properties| | | | | | | | | | | | | | |]; try done.
  destruct (args !! 2%nat) as [arg2|]; simpl; [|done].
  destruct arg2 as [| | | |id| | | | | | | | | | | | | | | | | |]; try done.
  destruct (formatExports properties (Some from) (Some id)) as [exports|] eqn:Hformat;
    [|done].
  simpl. intros [= <-]. exact (formatExports_wellFormed properties (Some (from, id)) _ Hformat).
Qed.

Lemma collectExports_Forall (P : ModuleExport -> Prop) (body : list Node)
    (exportList records : list ModuleExport) :
  (forall statement exports,
     statement ∈ body -> readModuleExports statement = Return (Some exports) ->
     Forall P exports) ->
  collectExports readModuleExports body exportList = Return records ->
  Forall P exportList -> Forall P records.
Proof.
  intros Hbody. unfold collectExports. apply forEach_invariant.
  intros statement acc acc' Hin Hstep Hacc.
  destruct (readModuleExports statement) as [[exports|]|] eqn:Hread; simpl in Hstep;
    try done; injection Hstep as <-; [|done].
  apply Forall_app. split; [done|]. by apply (Hbody statement).
Qed.

Lemma readModuleExports_wellFormed (statement : Node) (records : list ModuleExport) :
  readModuleExports statement = Return (Some records) ->
  Forall (fun record => wellFormedExport record = true) records.
Proof.
  revert records. induction statement as [statement IH] using node_size_ind.
  intros records.
  destruct statement as [| | | | | | | | | | | | | | | |expression| | | | | |]; try done.
  destruct expression
    as [| | | | | | | | | | | | | | | | |operator argument|callee args| | | |]; try done.
  - simpl. destruct (String.eqb operator "!"); simpl; [|done].
    destruct argument as [| | | | | | | | | | | | | | | | | |callee args| | | |]; try done.
    destruct callee as [| | | | | | | | | | | | | | | | | | |object property| | |]; try done.
    destruct object as [| | | | | | | | | | |id params mainModule| | | | | | | | | | |]; try done.
    destruct mainModule as [| | | | | | | | | | | | | | |body| | | | | | |]; try done.
    destruct (collectExports readModuleExports body []) as [exports|] eqn:Hcollect;
      [|done].
    simpl. intros [= <-].
    eapply collectExports_Forall; [|exact Hcollect|constructor].
    intros inner exports' Hin. apply IH.
    pose proof (preorder_length_elem _ _ Hin) as Hle. simpl.
    repeat (rewrite length_app; simpl). lia.
  - apply readModuleCall_wellFormed.
Qed.

Lemma traverseModule_wellFormed (property : Node) :
  forall parentPath modules modules',
    traverseModule property parentPath modules = Return modules' ->
    wellFormedModules modules -> wellFormedModules modules'.
Proof.
  induction property as [key value IH|node Hnode] using properties_ind.
  - intros parentPath modules modules'. simpl.
    destruct (toString (keyValue key)) as [segment|]; simpl; [|done].
    assert (Hleaf : forall body,
              match collectExports readModuleExports body [] with
              | Return exportList =>
                  Return (setProperty (parentPath +:+ segment) exportList modules)
              | Throw e => Throw e
              end = Return modules' ->
              wellFormedModules modules -> wellFormedModules modules').
    { intros body Hrun Hmodules.
      destruct (collectExports readModuleExports body []) as [exportList|] eqn:Hcollect;
        [|done].
      injection Hrun as <-. unfold setProperty.
      destruct (String.eqb _ "__proto__"); [done|]. apply map_Forall_insert_2; [|done].
      eapply collectExports_Forall; [|exact Hcollect|constructor].
      intros statement exports _. apply readModuleExports_wellFormed. }
    destruct value
      as [| | | | | | |properties| |? ? ? body| |? ? body|? body|? ? body| | | | | | | | |];
      try done.
    + specialize (IH properties eq_refl). apply forEach_invariant.
      intros inner t t' Hin. rewrite Forall_forall in IH. by apply IH.
    + simpl. destruct (bodyList body) as [statements|]; simpl; [apply Hleaf|done].
    + simpl. destruct (bodyList body) as [statements|]; simpl; [apply Hleaf|done].
    + simpl. destruct (bodyList body) as [statements|]; simpl; [apply Hleaf|done].
    + simpl. destruct (bodyList body) as [statements|]; simpl; [apply Hleaf|done].
  - intros parentPath modules modules'.
    destruct node as [| | | | | | | |k v| | | | | | | | | | | | | |]; try done.
    by destruct (Hnode k v).
Qed.

Lemma parseMeteorInstall_wellFormed (node : Node) (install : MeteorInstall) :
  parseMeteorInstall node = Return (Some install) ->
  wellFormedModules (install_modules install).
Proof.
  unfold parseMeteorInstall.
  destruct node as [| | | | | | | | | | | | | | | | | |callee args| | | |]; try done.
  destruct (isMeteorInstall _); simpl; [|done].
  destruct (args !! 0%nat) as [packageConfig|]; simpl; [|done].
  destruct (firstProperty packageConfig) as [node_modules|]; simpl; [|done].
  destruct (firstProperty node_modules.2) as [meteor|]; simpl; [|done].
  destruct (firstProperty meteor.2) as [packageName|]; simpl; [|done].
  destruct (propertiesOf packageName.2) as [packageModules|]; simpl; [|done].
  destruct (traverseModules packageModules "" ∅) as [modules|] eqn:Htraverse; [|done].
  simpl. intros [= <-]. simpl.
  unfold traverseModules in Htraverse.
  eapply (forEach_invariant _ wellFormedModules); [|exact Htraverse|].
  - intros property t t' _. apply traverseModule_wellFormed.
  - apply map_Forall_empty.
Qed.

Lemma enter_wellFormed (node : Node) (result result' : ParsedPackage) :
  enter node result = Return result' ->
  wellFormedModules (modules result) -> wellFormedModules (modules result').
Proof.
  unfold enter.
  destruct (parsePackageScope node) as [scope|]; simpl; [|done].
  destruct (parseMeteorInstall node) as [install|] eqn:Hinstall; simpl; [|done].
  destruct install as [install|].
  - apply parseMeteorInstall_wellFormed in Hinstall.
    destruct scope; intros [= <-]; done.
  - destruct scope; intros [= <-]; done.
Qed.

(** X1. Every export record the parser returns has the fields of its
    type and no others: named and default exports carry a name only, a
    global binding also [from] and [id], a re-export also an [as] when it
    differs from the name.  This holds for the records of any statement,
    main module wrappers included, and so for every entry of the module
    list of a parsed package. *)
Theorem export_records_well_formed (source : Node) (result : ParsedPackage)
    (path : string) (records : list ModuleExport) :
  parseSource source = Return result ->
  modules result !! path = Some records ->
  Forall (fun record => wellFormedExport record = true) records.
Proof.
  intros Hrun Hpath.
  assert (Hall : wellFormedModules (modules result)).
  { unfold parseSource, traverse in Hrun.
    eapply (forEach_invariant _ (fun r => wellFormedModules (modules r)));
      [|exact Hrun|apply map_Forall_empty].
    intros node t t' _. apply enter_wellFormed. }
  exact (Hall path records Hpath).
Qed.

Lemma export_records_well_formed_witness :
  Forall (fun record => wellFormedExport record = true)
    [mkModuleExport "check" export None None None;
     mkModuleExport "Match" export None None None;
     mkModuleExport "isPlainObject" global_binding (Some (number "0")) (Some "./isPlainObject") None].
Proof.
  refine (export_records_well_formed checkBundle
            (mkParsedPackage (str "check")
               (<["isPlainObject.js" := [mkModuleExport "isPlainObject" export None None None]]>
                  {["match.js" :=
                      [mkModuleExport "check" export None None None;
                       mkModuleExport "Match" export None None None;
                       mkModuleExport "isPlainObject" global_binding (Some (number "0"))
                         (Some "./isPlainObject") None]]})
               "/node_modules/meteor/check/match.js"
               {["check" := ["check"; "Match"]]})
            "match.js" _ _ _).
  - vm_compute. reflexivity.
  - vm_compute. reflexivity.
Defined.

(** ** The failures of the parser *)















(** X3. The extraction returns a package exactly when the traversal
    succeeds with a name and with at least one module or one package-scope
    entry; what it returns is the result of the traversal, unchanged. *)
Theorem parse_success (filePath : string) (source : Node) (result : ParsedPackage) :
  parseMeteorPackage filePath source = Return result
  <-> parseSource source = Return result
      /\ truthy (name result) = true
      /\ (modules result <> ∅ \/ packageScopeExports result <> ∅).
Proof.
  unfold parseMeteorPackage. split.
  - destruct (parseSource source) as [r|failure]; [|by destruct failure].
    destruct (truthy (name r)) eqn:Hname; simpl; [|done].
    destruct (size (modules r) =? 0)%nat eqn:Hmodules; simpl.
    + destruct (size (packageScopeExports r) =? 0)%nat eqn:Hscope; [done|].
      intros [= <-]. split_and!; [done..|]. right.
      apply map_size_non_empty_iff. by apply Nat.eqb_neq.
    + intros [= <-]. split_and!; [done..|]. left.
      apply map_size_non_empty_iff. by apply Nat.eqb_neq.
  - intros (-> & -> & Hsome). simpl.
    destruct Hsome as [Hsome|Hsome]; apply map_size_non_empty_iff, Nat.eqb_neq in Hsome;
      rewrite Hsome; [done|]. by rewrite andb_false_r.
Qed.

(** ** What the parts of the result come from *)

Lemma enter_modules (node : Node) (result result' : ParsedPackage) :
  enter node result = Return result' ->
  modules result'
  = match parseMeteorInstall node with
    | Return (Some install) => install_modules install
    | _ => modules result
    end.
Proof.
  unfold enter.
  destruct (parsePackageScope node) as [scope|]; simpl; [|done].
  destruct (parseMeteorInstall node) as [[install|]|]; simpl; [| |done];
    destruct scope; by intros [= <-].
Qed.

Lemma forEach_enter_modules_kept (nodes : list Node) (result result' : ParsedPackage) :
  (forall node, node ∈ nodes -> isMeteorInstall node = false) ->
  forEach enter nodes result = Return result' ->
  modules result' = modules result.
Proof.
  intros Hnodes Hrun.
  eapply (forEach_invariant enter (fun r => modules r = modules result));
    [|exact Hrun|done].
  intros node t t' Hin Henter <-. rewrite (enter_modules _ _ _ Henter).
  by rewrite (parseMeteorInstall_other _ (Hnodes node Hin)).
Qed.

(** X4. The module list of the result is that of the last installer call
    the traversal visits: an installer call replaces the module list, it
    does not add to it.  Without an installer call the module list is
    empty. *)
Theorem last_installer_modules (source : Node) (result : ParsedPackage) :
  parseSource source = Return result ->
  (forall before node after install,
     preorder source = before ++ node :: after ->
     parseMeteorInstall node = Return (Some install) ->
     (forall later, later ∈ after -> isMeteorInstall later = false) ->
     modules result = install_modules install)
  /\ ((forall node, node ∈ preorder source -> isMeteorInstall node = false) ->
      modules result = ∅).
Proof.
  intros Hrun. unfold parseSource, traverse in Hrun. split.
  - intros before node after install Hpre Hinstall Hafter.
    rewrite Hpre, forEach_app in Hrun.
    destruct (forEach enter before emptyPackage) as [r1|]; [|done].
    simpl in Hrun. destruct (enter node r1) as [r2|] eqn:Henter; [|done].
    rewrite (forEach_enter_modules_kept _ _ _ Hafter Hrun).
    by rewrite (enter_modules _ _ _ Henter), Hinstall.
  - intros Hnone. by rewrite (forEach_enter_modules_kept _ _ _ Hnone Hrun).
Qed.

Lemma last_installer_modules_witness :
  exists result,
    parseSource twoInstallers = Return result
    /\ modules result = {["b.js" := [namedExport "B"]]}.
Proof.
  assert (Hrun : parseSource twoInstallers
                 = Return (mkParsedPackage (str "second")
                             {["b.js" := [namedExport "B"]]} "" ∅))
    by (vm_compute; reflexivity).
  eexists. split; [exact Hrun|].
  refine (proj1 (last_installer_modules twoInstallers _ Hrun)
            (take 33 (preorder twoInstallers))
            (installerCall (StringLiteral "second")
               [ObjectProperty (StringLiteral "b.js")
                  (moduleFunction
                     [moduleCall "module" "export"
                        [ObjectExpression
                           [ObjectMethod "method" (Identifier "B") [] (BlockStatement [])]]])]
               [])
            (drop 34 (preorder twoInstallers))
            (mkMeteorInstall (str "second") {["b.js" := [namedExport "B"]]}) _ _ _).
  - vm_compute. reflexivity.
  - vm_compute. reflexivity.
  - intros later Hlater.
    apply (forallb_elem_of (fun n => negb (isMeteorInstall n))) in Hlater;
      [by destruct (isMeteorInstall later)|].
    vm_compute. reflexivity.
Defined.

Lemma enter_packageScopeExports (node : Node) (result result' : ParsedPackage) :
  enter node result = Return result' ->
  packageScopeExports result'
  = match parsePackageScope node with
    | Return (Some scope) =>
        setProperty (scope_name scope) (scope_exports scope) (packageScopeExports result)
    | _ => packageScopeExports result
    end.
Proof.
  unfold enter.
  destruct (parsePackageScope node) as [scope|]; simpl; [|done].
  destruct (parseMeteorInstall node) as [[install|]|]; simpl; [| |done];
    destruct scope; by intros [= <-].
Qed.

(** X5. Among the [Package._define] calls for one package name, other
    than [__proto__], the last one visited decides the package-scope
    exports of that name: a later call overwrites the entry, calls for
    other names leave it alone. *)
Theorem scope_exports_last_wins (source : Node) (before after : list Node)
    (node : Node) (scope : PackageExport) (result : ParsedPackage) :
  preorder source = before ++ node :: after ->
  parseSource source = Return result ->
  parsePackageScope node = Return (Some scope) ->
  scope_name scope <> "__proto__" ->
  (forall later other,
     later ∈ after -> parsePackageScope later = Return (Some other) ->
     scope_name other <> scope_name scope) ->
  packageScopeExports result !! scope_name scope = Some (scope_exports scope).
Proof.
  intros Hpre Hrun Hscope Hproto Hafter. unfold parseSource, traverse in Hrun.
  rewrite Hpre, forEach_app in Hrun.
  destruct (forEach enter before emptyPackage) as [r1|]; [|done].
  simpl in Hrun. destruct (enter node r1) as [r2|] eqn:Henter; [|done].
  eapply (forEach_invariant enter
            (fun r => packageScopeExports r !! scope_name scope
                      = Some (scope_exports scope))); [|exact Hrun|].
  - intros later t t' Hin Hlater Ht. rewrite (enter_packageScopeExports _ _ _ Hlater).
    destruct (parsePackageScope later) as [[other|]|] eqn:Hother; [|done..].
    rewrite lookup_setProperty_ne; [done|]. by apply (Hafter later).
  - rewrite (enter_packageScopeExports _ _ _ Henter), Hscope.
    by apply lookup_setProperty_eq.
Qed.

Lemma scope_exports_last_wins_witness :
  exists result,
    parseSource redefinedScope = Return result
    /\ packageScopeExports result !! "meteor" = Some ["Meteor"; "global"].
Proof.
  assert (Hrun : parseSource redefinedScope
                 = Return (mkParsedPackage (str "meteor") ∅ ""
                             (<["meteor" := ["Meteor"; "global"]]>
                                (<["other" := ["b"]]> {["meteor" := ["Old"]]}))))
    by (vm_compute; reflexivity).
  eexists. split; [exact Hrun|].
  refine (scope_exports_last_wins redefinedScope
            (take 23 (preorder redefinedScope)) (drop 24 (preorder redefinedScope))
            (defineCall [StringLiteral "meteor"; Identifier "exports";
                         ObjectExpression
                           [ObjectProperty (Identifier "Meteor") (Identifier "Meteor");
                            ObjectProperty (Identifier "global") (Identifier "global")]])
            (mkPackageExport "meteor" ["Meteor"; "global"]) _ _ Hrun _ _ _).
  - vm_compute. reflexivity.
  - vm_compute. reflexivity.
  - discriminate.
  - intros later other Hlater.
    apply (forallb_elem_of
             (fun n => match parsePackageScope n with
                       | Return None => true
                       | _ => false
                       end)) in Hlater.
    + by destruct (parsePackageScope later) as [[]|].
    + vm_compute. reflexivity.
Defined.

Lemma forEach_enter_provenance (nodes : list Node) (result result' : ParsedPackage) :
  forEach enter nodes result = Return result' ->
  (name result' = name result
   \/ exists node, node ∈ nodes
        /\ ((exists install, parseMeteorInstall node = Return (Some install)
                             /\ name result' = install_name install)
            \/ (exists scope, parsePackageScope node = Return (Some scope)
                              /\ name result' = str (scope_name scope))))
  /\ (forall nm exports,
        packageScopeExports result' !! nm = Some exports ->
        packageScopeExports result !! nm = Some exports
        \/ exists node, node ∈ nodes
             /\ parsePackageScope node = Return (Some (mkPackageExport nm exports)))
  /\ (mainModulePath result' = mainModulePath result
      \/ exists node, node ∈ nodes
           /\ readMainModulePath node = Some (mainModulePath result')).
Proof.
  revert result. induction nodes as [|node nodes IH]; intros result Hrun;
    simpl in Hrun.
  - injection Hrun as <-. split_and!; auto.
  - destruct (enter node result) as [r|] eqn:Henter; [|done].
    destruct (IH r Hrun) as (Hname & Hscope & Hpath).
    assert (Hlater : forall P : Node -> Prop,
              (exists n, n ∈ nodes /\ P n) -> exists n, n ∈ node :: nodes /\ P n).
    { intros P (n & Hn & HP). exists n. split; [by right|done]. }
    split_and!.
    + destruct Hname as [Hname|Hname]; [|right; by apply Hlater].
      rewrite Hname. clear Hname Hscope Hpath Hrun IH Hlater. unfold enter in Henter.
      destruct (parsePackageScope node) as [[scope|]|] eqn:Hs; simpl in Henter;
        try done;
        destruct (parseMeteorInstall node) as [[install|]|] eqn:Hi; simpl in Henter;
        try done; injection Henter as <-; simpl.
      * destruct (truthy (install_name install));
          right; exists node; (split; [left|]); eauto.
      * destruct (truthy (name result)); [by left|].
        right. exists node. split; [left|]. eauto.
      * right. exists node. split; [left|]. eauto.
      * by left.
    + intros nm exports Hlook. destruct (Hscope nm exports Hlook) as [Hr|Hr];
        [|right; by apply (Hlater (fun n => parsePackageScope n = _))].
      rewrite (enter_packageScopeExports _ _ _ Henter) in Hr.
      destruct (parsePackageScope node) as [[scope|]|] eqn:Hs; [|by left..].
      destruct (decide (scope_name scope = nm)) as [<-|Hne].
      * unfold setProperty in Hr.
        destruct (String.eqb (scope_name scope) "__proto__"); [by left|].
        rewrite lookup_insert_eq in Hr. injection Hr as <-.
        right. exists node. split; [left|]. by destruct scope.
      * rewrite lookup_setProperty_ne in Hr by done. by left.
    + destruct Hpath as [Hpath|Hpath];
        [|right; by apply (Hlater (fun n => readMainModulePath n = _))].
      rewrite Hpath, (enter_mainModulePath _ _ _ Henter).
      destruct (readMainModulePath node) as [path|] eqn:Hnode; simpl; [|by left].
      destruct (String.eqb path ""); [by left|].
      right. exists node. split; [left|done].
Qed.

(** X6. Nothing in the result is made up.  A name comes from the package
    key of an installer call or from the name of a [Package._define]
    call; every entry of the package-scope exports is what some
    [Package._define] call of the tree yields; a main module path is the
    literal of some [exports = require("...")] declarator. *)
Theorem result_provenance (source : Node) (result : ParsedPackage) :
  parseSource source = Return result ->
  (truthy (name result) = true ->
   exists node, node ∈ preorder source
     /\ ((exists install, parseMeteorInstall node = Return (Some install)
                          /\ name result = install_name install)
         \/ (exists scope, parsePackageScope node = Return (Some scope)
                           /\ name result = str (scope_name scope))))
  /\ (forall nm exports,
        packageScopeExports result !! nm = Some exports ->
        exists node, node ∈ preorder source
          /\ parsePackageScope node = Return (Some (mkPackageExport nm exports)))
  /\ (mainModulePath result <> "" ->
      exists node, node ∈ preorder source
        /\ readMainModulePath node = Some (mainModulePath result)).
Proof.
  intros Hrun.
  destruct (forEach_enter_provenance _ _ _ Hrun) as (Hname & Hscope & Hpath).
  split_and!.
  - intros Htruthy. destruct Hname as [Hname|Hname]; [|done].
    by rewrite Hname in Htruthy.
  - intros nm exports Hlook. destruct (Hscope nm exports Hlook) as [Hempty|Hnode];
      [|done]. simpl in Hempty. by rewrite lookup_empty in Hempty.
  - intros Hnonempty. by destruct Hpath as [Hpath|Hpath].
Qed.

Lemma result_provenance_witness :
  exists node,
    node ∈ preorder checkBundle
    /\ parsePackageScope node = Return (Some (mkPackageExport "check" ["check"; "Match"])).
Proof.
  refine (proj1 (proj2 (result_provenance checkBundle
            (mkParsedPackage (str "check")
               (<["isPlainObject.js" := [mkModuleExport "isPlainObject" export None None None]]>
                  {["match.js" :=
                      [mkModuleExport "check" export None None None;
                       mkModuleExport "Match" export None None None;
                       mkModuleExport "isPlainObject" global_binding (Some (number "0"))
                         (Some "./isPlainObject") None]]})
               "/node_modules/meteor/check/match.js"
               {["check" := ["check"; "Match"]]}) _)) "check" ["check"; "Match"] _).
  - vm_compute. reflexivity.
  - vm_compute. reflexivity.
Defined.

(** ** The package scope call, argument by argument *)

(** X7. With three arguments the exports are read from the third one and
    the second one is not looked at, whatever it is; further arguments
    are not looked at either. *)
Theorem define_three_arguments (nm : string) (second : Node)
    (properties rest : list Node) (keys : list string) :
  mapM propertyKey properties = Some keys ->
  parsePackageScope
    (defineCall (StringLiteral nm :: second :: ObjectExpression properties :: rest))
  = Return (Some (mkPackageExport nm keys)).
Proof.
  intros Hkeys. unfold parsePackageScope, defineCall. simpl.
  by rewrite (packageScope_keys _ _ [] Hkeys).
Qed.

Lemma define_three_arguments_witness :
  parsePackageScope
    (defineCall [StringLiteral "check";
                 ObjectExpression [ObjectProperty (Identifier "ignored") (Identifier "x")];
                 ObjectExpression
                   [ObjectProperty (Identifier "check") (Identifier "check");
                    ObjectProperty (StringLiteral "Match") (Identifier "Match")]])
  = Return (Some (mkPackageExport "check" ["check"; "Match"])).
Proof.
  apply (define_three_arguments "check"
           (ObjectExpression [ObjectProperty (Identifier "ignored") (Identifier "x")])
           [ObjectProperty (Identifier "check") (Identifier "check");
            ObjectProperty (StringLiteral "Match") (Identifier "Match")]
           [] ["check"; "Match"]).
  reflexivity.
Defined.

(** X8. A [Package._define] call with fewer than three arguments whose
    second argument is missing or is not an object literal is passed
    over: no error, and nothing of the result changes, not even the
    name. *)
Theorem define_without_exports_ignored (args : list Node) (result : ParsedPackage) :
  args !! 2%nat = None ->
  (forall second, args !! 1%nat = Some second -> isObjectExpression second = false) ->
  parsePackageScope (defineCall args) = Return None
  /\ enter (defineCall args) result = Return result.
Proof.
  intros Hthird Hsecond.
  assert (Hscope : parsePackageScope (defineCall args) = Return None).
  { unfold parsePackageScope, defineCall. simpl. rewrite Hthird.
    destruct (args !! 1%nat) as [second|]; [|done].
    specialize (Hsecond second eq_refl). by destruct second. }
  split; [done|]. unfold enter. rewrite Hscope. simpl. by destruct result.
Qed.

Lemma define_without_exports_ignored_witness :
  parsePackageScope (defineCall [StringLiteral "ostrio:cookies"; Identifier "exports"])
    = Return None
  /\ enter (defineCall [StringLiteral "ostrio:cookies"; Identifier "exports"]) emptyPackage
     = Return emptyPackage.
Proof.
  apply (define_without_exports_ignored
           [StringLiteral "ostrio:cookies"; Identifier "exports"] emptyPackage).
  - reflexivity.
  - intros second [= <-]. reflexivity.
Defined.

(** X9. When the exports object is there but the first argument is not a
    string literal, the call fails with the error for the package name,
    which carries that argument; the properties of the exports object
    are not looked at before. *)
Theorem define_name_not_string (args : list Node) (first : Node)
    (properties : list Node) :
  args !! 0%nat = Some first ->
  match first with StringLiteral _ => False | _ => True end ->
  args !! 2%nat = Some (ObjectExpression properties)
  \/ (args !! 2%nat = None /\ args !! 1%nat = Some (ObjectExpression properties)) ->
  parsePackageScope (defineCall args)
  = Throw (ModuleExportsError "Unexpected type received for package name!" first).
Proof.
  intros Hfirst Hkind Hexports. unfold parsePackageScope, defineCall. simpl.
  destruct Hexports as [->|[-> ->]]; rewrite Hfirst; simpl; by destruct first.
Qed.

Lemma define_name_not_string_witness :
  parsePackageScope
    (defineCall [Identifier "packageName"; Identifier "exports";
                 ObjectExpression [SpreadElement (Identifier "everything")]])
  = Throw (ModuleExportsError "Unexpected type received for package name!"
             (Identifier "packageName")).
Proof.
  apply (define_name_not_string
           [Identifier "packageName"; Identifier "exports";
            ObjectExpression [SpreadElement (Identifier "everything")]]
           (Identifier "packageName") [SpreadElement (Identifier "everything")]).
  - reflexivity.
  - exact I.
  - left. reflexivity.
Defined.

(** ** Export statements *)

Lemma formatExport_name (packageName : option string) (id : option Number)
    (property : Node) (record : ModuleExport) :
  formatExport packageName id property = Return record ->
  propertyKey property = Some (export_name record).
Proof.
  unfold formatExport, getKey.
  destruct property as [| | | | | | | |key content|? key ? ?| | | | | | | | | | | | |];
    try done; simpl.
  - destruct key; try done; simpl; (destruct packageName; [|by intros [= <-]]);
      destruct content; try done; by intros [= <-].
  - destruct key; try done; simpl; destruct packageName; by intros [= <-].
Qed.

(** X10. A call that is read yields one record per property of its
    object literal, in the order of the properties, each named after the
    key of its property; this holds for [module.export] and for
    [module.link]. *)
Theorem format_exports_names (properties : list Node) (packageName : option string)
    (id : option Number) (records : list ModuleExport) :
  formatExports properties packageName id = Return records ->
  mapM propertyKey properties = Some (export_name <$> records)
  /\ length records = length properties.
Proof.
  unfold formatExports. revert records.
  induction properties as [|property properties IH]; intros records; simpl.
  - by intros [= <-].
  - destruct (formatExport packageName id property) as [record|] eqn:Hrecord; [|done].
    destruct (mapArray _ properties) as [rest|]; [|done].
    intros [= <-]. destruct (IH rest eq_refl) as [Hkeys Hlength].
    split; [|by simpl; rewrite Hlength].
    simpl. rewrite (formatExport_name packageName id _ _ Hrecord). simpl.
    by rewrite Hkeys.
Qed.

Lemma format_exports_names_witness :
  mapM propertyKey
    [ObjectProperty (Identifier "Meteor") (StringLiteral "MyMeteor");
     ObjectMethod "method" (StringLiteral "Tracker") [Identifier "v"] (BlockStatement [])]
  = Some (export_name <$>
            [mkModuleExport "Meteor" re_export (Some (number "2")) (Some "meteor/meteor")
               (Some "MyMeteor");
             mkModuleExport "Tracker" global_binding (Some (number "2")) (Some "meteor/meteor")
               None])
  /\ length [mkModuleExport "Meteor" re_export (Some (number "2")) (Some "meteor/meteor")
               (Some "MyMeteor");
             mkModuleExport "Tracker" global_binding (Some (number "2")) (Some "meteor/meteor")
               None]
     = length [ObjectProperty (Identifier "Meteor") (StringLiteral "MyMeteor");
               ObjectMethod "method" (StringLiteral "Tracker") [Identifier "v"]
                 (BlockStatement [])].
Proof.
  apply (format_exports_names
           [ObjectProperty (Identifier "Meteor") (StringLiteral "MyMeteor");
            ObjectMethod "method" (StringLiteral "Tracker") [Identifier "v"]
              (BlockStatement [])]
           (Some "meteor/meteor") (Some (number "2"))).
  reflexivity.
Defined.

(** X11. [module.export] succeeds exactly on the object literals whose
    properties all have an identifier or a string literal as key, and it
    then yields the named exports of those keys, whatever the values of
    the properties are. *)
Theorem named_exports (properties : list Node) (records : list ModuleExport) :
  formatExports properties None None = Return records
  <-> exists keys,
        mapM propertyKey properties = Some keys /\ records = namedExport <$> keys.
Proof.
  unfold formatExports. revert records.
  induction properties as [|property properties IH]; intros records; simpl.
  - split.
    + intros [= <-]. by exists [].
    + intros (keys & [= <-] & ->). done.
  - split.
    + destruct (formatExport None None property) as [record|] eqn:Hrecord; [|done].
      destruct (mapArray _ properties) as [rest|]; [|done].
      intros [= <-]. destruct (proj1 (IH rest) eq_refl) as (keys & Hkeys & ->).
      pose proof (formatExport_name _ _ _ _ Hrecord) as Hkey.
      exists (export_name record :: keys). rewrite Hkey. simpl. rewrite Hkeys. simpl.
      split; [done|]. f_equal. unfold formatExport in Hrecord.
      destruct property; try done;
        (destruct (getKey _); simpl in Hrecord; [|done]; by injection Hrecord as <-).
    + intros (keys & Hkeys & ->).
      destruct (propertyKey property) as [key|] eqn:Hkey; simpl in Hkeys; [|done].
      destruct (mapM propertyKey properties) as [rest|] eqn:Hrest; simpl in Hkeys;
        [|done].
      injection Hkeys as <-.
      rewrite (proj2 (IH (namedExport <$> rest)) (ex_intro _ rest (conj eq_refl eq_refl))).
      unfold formatExport. rewrite (getKey_propertyKey _ _ Hkey).
      by destruct property.
Qed.

(** ** The arguments of [module.link] *)

(** X12. When one of the three arguments of a [module.link] call is not
    of the expected kind, the call fails with a [ModuleExportsError]
    whose node is the first argument, also when the second or the third
    argument is the one at fault; no binding is read before. *)
Theorem link_argument_errors (object : string) (first second third : Node)
    (rest : list Node) :
  isModuleBinding object = true ->
  linkArguments first second third = false ->
  exists message,
    readModuleExports (moduleCall object "link" (first :: second :: third :: rest))
    = Throw (ModuleExportsError message first).
Proof.
  intros Hobject Hkinds. unfold moduleCall. simpl. rewrite Hobject. simpl.
  destruct first; try (eexists; reflexivity);
    destruct second; try (eexists; reflexivity);
    destruct third; try (eexists; reflexivity); done.
Qed.

Lemma link_argument_errors_witness :
  exists message,
    readModuleExports
      (moduleCall "module1" "link"
         [StringLiteral "meteor/meteor";
          ObjectExpression [SpreadElement (Identifier "bindings")];
          StringLiteral "0"])
    = Throw (ModuleExportsError message (StringLiteral "meteor/meteor")).
Proof.
  apply (link_argument_errors "module1" (StringLiteral "meteor/meteor")
           (ObjectExpression [SpreadElement (Identifier "bindings")])
           (StringLiteral "0") []).
  - reflexivity.
  - reflexivity.
Defined.

(** ** Names of the module object *)

Lemma stripPrefix_Some (p s rest : string) :
  stripPrefix p s = Some rest <-> s = p +:+ rest.
Proof.
  revert s. induction p as [|a p IH]; intros s; simpl.
  - split; [by intros [= ->]|by intros ->].
  - destruct s as [|b s]; [done|].
    destruct (Ascii.eqb a b) eqn:Hhead.
    + apply Ascii.eqb_eq in Hhead as ->. rewrite IH.
      split; [by intros ->|by intros [= ->]].
    + apply Ascii.eqb_neq in Hhead. split; [done|]. intros [= <- _]. done.
Qed.

Lemma allDigits_digits (s : string) : allDigits s = true <-> digits s.
Proof.
  unfold digits. induction s as [|c s IH]; simpl.
  - split; [constructor|done].
  - rewrite andb_true_iff, IH. split.
    + intros [Hc Hs]. by constructor.
    + by inversion 1.
Qed.

(** X13. The objects whose calls are read are exactly those named
    [module] followed by decimal digits, possibly none: nothing may come
    before the word or after the digits. *)
Theorem module_binding_names (nm : string) :
  isModuleBinding nm = true <-> exists suffix, nm = "module" +:+ suffix /\ digits suffix.
Proof.
  unfold isModuleBinding. split.
  - destruct (stripPrefix "module" nm) as [rest|] eqn:Hrest; [|done].
    intros Hdigits. exists rest. split; [by apply stripPrefix_Some|].
    by apply allDigits_digits.
  - intros (suffix & Hnm & Hdigits). apply stripPrefix_Some in Hnm. rewrite Hnm.
    by apply allDigits_digits.
Qed.

(** ** The wrapper of a main module *)

(** X14. A statement that is a unary expression yields export records
    exactly when it negates, with [!], a call whose callee is a member of
    a function expression with a block for a body; the records are then
    those of the statements of that block.  A function that is called
    directly, as in [!function () { ... }()], yields nothing. *)
Theorem main_module_wrapper (operator : string) (argument : Node)
    (records : list ModuleExport) :
  readModuleExports (ExpressionStatement (UnaryExpression operator argument))
    = Return (Some records)
  <-> operator = "!"
      /\ exists id params body property args,
           argument = CallExpression
                        (MemberExpression (FunctionExpression id params (BlockStatement body))
                           property) args
           /\ collectExports readModuleExports body [] = Return records.
Proof.
  simpl. split.
  - destruct (String.eqb operator "!") eqn:Hoperator; simpl; [|done].
    apply String.eqb_eq in Hoperator as ->.
    destruct argument as [| | | | | | | | | | | | | | | | | |callee args| | | |]; try done.
    destruct callee as [| | | | | | | | | | | | | | | | | | |object property| | |]; try done.
    destruct object as [| | | | | | | | | | |id params mainModule| | | | | | | | | | |]; try done.
    destruct mainModule as [| | | | | | | | | | | | | | |body| | | | | | |]; try done.
    destruct (collectExports readModuleExports body []) as [collected|] eqn:Hbody;
      simpl; [|done].
    intros [= <-]. split; [done|]. by exists id, params, body, property, args.
  - intros (-> & id & params & body & property & args & -> & Hbody). simpl.
    change (collectExports readModuleExports body [] ≫= (fun moduleExports => Return (Some moduleExports))
            = Return (Some records)).
    by rewrite Hbody.
Qed.

(** ** One visit of the traversal *)

(** X15. A visit that succeeds changes the result in at most one way:
    an installer call replaces the name and the module list, a
    [Package._define] call assigns its exports to the property of its
    name in the package-scope exports (one entry, or none for the name
    [__proto__]) and gives the name if there was none, a declaration of
    [exports] with a non-empty path replaces the main module path, and
    any other node leaves the result as it was. *)
Theorem visit_effect (node : Node) (result result' : ParsedPackage) :
  enter node result = Return result' ->
  (exists install,
     parseMeteorInstall node = Return (Some install)
     /\ result' = mkParsedPackage (install_name install) (install_modules install)
                    (mainModulePath result) (packageScopeExports result))
  \/ (exists scope,
        parsePackageScope node = Return (Some scope)
        /\ result' = mkParsedPackage
                       (if truthy (name result) then name result
                        else str (scope_name scope))
                       (modules result) (mainModulePath result)
                       (setProperty (scope_name scope) (scope_exports scope)
                          (packageScopeExports result)))
  \/ (exists path,
        readMainModulePath node = Some path /\ path <> ""
        /\ result' = mkParsedPackage (name result) (modules result) path
                       (packageScopeExports result))
  \/ result' = result.
Proof.
  intros Henter.
  destruct (parsePackageScope node) as [[scope|]|failure] eqn:Hscope.
  - rewrite (enter_define _ _ _ Hscope) in Henter. injection Henter as <-.
    right. left. by exists scope.
  - destruct (parseMeteorInstall node) as [[install|]|failure] eqn:Hinstall.
    + rewrite (enter_install _ _ _ Hinstall) in Henter. injection Henter as <-.
      left. exists install. split; [done|].
      destruct node; try done.
    + unfold enter in Henter. rewrite Hscope, Hinstall in Henter. simpl in Henter.
      injection Henter as <-.
      destruct (readMainModulePath node) as [path|] eqn:Hpath; simpl.
      * destruct (String.eqb path "") eqn:Hempty.
        -- right. right. right. by destruct result.
        -- right. right. left. exists path. split_and!; [done| |done].
           by apply String.eqb_neq.
      * right. right. right. by destruct result.
    + unfold enter in Henter. by rewrite Hscope, Hinstall in Henter.
  - unfold enter in Henter. by rewrite Hscope in Henter.
Qed.

Lemma visit_effect_witness :
  (exists install,
     parseMeteorInstall (exportsRequire "/node_modules/meteor/check/match.js")
       = Return (Some install)
     /\ mkParsedPackage (str "check") ∅ "/node_modules/meteor/check/match.js" ∅
        = mkParsedPackage (install_name install) (install_modules install)
            (mainModulePath (mkParsedPackage (str "check") ∅ "" ∅))
            (packageScopeExports (mkParsedPackage (str "check") ∅ "" ∅)))
  \/ (exists scope,
        parsePackageScope (exportsRequire "/node_modules/meteor/check/match.js")
          = Return (Some scope)
        /\ mkParsedPackage (str "check") ∅ "/node_modules/meteor/check/match.js" ∅
           = mkParsedPackage
               (if truthy (name (mkParsedPackage (str "check") ∅ "" ∅))
                then name (mkParsedPackage (str "check") ∅ "" ∅)
                else str (scope_name scope))
               (modules (mkParsedPackage (str "check") ∅ "" ∅))
               (mainModulePath (mkParsedPackage (str "check") ∅ "" ∅))
               (setProperty (scope_name scope) (scope_exports scope)
                  (packageScopeExports (mkParsedPackage (str "check") ∅ "" ∅))))
  \/ (exists path,
        readMainModulePath (exportsRequire "/node_modules/meteor/check/match.js")
          = Some path
        /\ path <> ""
        /\ mkParsedPackage (str "check") ∅ "/node_modules/meteor/check/match.js" ∅
           = mkParsedPackage (name (mkParsedPackage (str "check") ∅ "" ∅))
               (modules (mkParsedPackage (str "check") ∅ "" ∅)) path
               (packageScopeExports (mkParsedPackage (str "check") ∅ "" ∅)))
  \/ mkParsedPackage (str "check") ∅ "/node_modules/meteor/check/match.js" ∅
     = mkParsedPackage (str "check") ∅ "" ∅.
Proof.
  apply (visit_effect (exportsRequire "/node_modules/meteor/check/match.js")
           (mkParsedPackage (str "check") ∅ "" ∅)
           (mkParsedPackage (str "check") ∅ "/node_modules/meteor/check/match.js" ∅)).
  reflexivity.
Defined.

(** ** The name [__proto__] *)

Lemma traverseModule_proto (property : Node) :
  forall parentPath modules modules',
    traverseModule property parentPath modules = Return modules' ->
    modules !! "__proto__" = None -> modules' !! "__proto__" = None.
Proof.
  induction property as [key value IH|node Hnode] using properties_ind.
  - intros parentPath modules modules'. simpl.
    destruct (toString (keyValue key)) as [segment|]; simpl; [|done].
    assert (Hleaf : forall body,
              match collectExports readModuleExports body [] with
              | Return exportList =>
                  Return (setProperty (parentPath +:+ segment) exportList modules)
              | Throw e => Throw e
              end = Return modules' ->
              modules !! "__proto__" = None -> modules' !! "__proto__" = None).
    { intros body Hrun Hmodules.
      destruct (collectExports readModuleExports body []) as [exportList|]; [|done].
      injection Hrun as <-. by apply lookup_setProperty_proto. }
    destruct value
      as [| | | | | | |properties| |? ? ? body| |? ? body|? body|? ? body| | | | | | | | |];
      try done.
    + specialize (IH properties eq_refl).
      apply (forEach_invariant _ (fun modules => modules !! "__proto__" = None)).
      intros inner t t' Hin. rewrite Forall_forall in IH. by apply IH.
    + simpl. destruct (bodyList body) as [statements|]; simpl; [apply Hleaf|done].
    + simpl. destruct (bodyList body) as [statements|]; simpl; [apply Hleaf|done].
    + simpl. destruct (bodyList body) as [statements|]; simpl; [apply Hleaf|done].
    + simpl. destruct (bodyList body) as [statements|]; simpl; [apply Hleaf|done].
  - intros parentPath modules modules'.
    destruct node as [| | | | | | | |k v| | | | | | | | | | | | | |]; try done.
    by destruct (Hnode k v).
Qed.

Lemma parseMeteorInstall_proto (node : Node) (install : MeteorInstall) :
  parseMeteorInstall node = Return (Some install) ->
  install_modules install !! "__proto__" = None.
Proof.
  unfold parseMeteorInstall.
  destruct node as [| | | | | | | | | | | | | | | | | |callee args| | | |]; try done.
  destruct (isMeteorInstall _); simpl; [|done].
  destruct (args !! 0%nat) as [packageConfig|]; simpl; [|done].
  destruct (firstProperty packageConfig) as [node_modules|]; simpl; [|done].
  destruct (firstProperty node_modules.2) as [meteor|]; simpl; [|done].
  destruct (firstProperty meteor.2) as [packageName|]; simpl; [|done].
  destruct (propertiesOf packageName.2) as [packageModules|]; simpl; [|done].
  destruct (traverseModules packageModules "" ∅) as [modules|] eqn:Htraverse; [|done].
  simpl. intros [= <-]. simpl.
  unfold traverseModules in Htraverse.
  eapply (forEach_invariant _ (fun modules => modules !! "__proto__" = None));
    [|exact Htraverse|done].
  intros property t t' _. apply traverseModule_proto.
Qed.

(** X16. Neither dictionary of a result ever has an entry named
    [__proto__]: a module file of that name at the top of a package and
    a [Package._define] call for that name are read without error and
    leave no entry, so they do not count when the result is tested for
    emptiness. *)
Theorem proto_never_an_entry (source : Node) (result : ParsedPackage) :
  parseSource source = Return result ->
  modules result !! "__proto__" = None
  /\ packageScopeExports result !! "__proto__" = None.
Proof.
  intros Hrun. unfold parseSource, traverse in Hrun.
  eapply (forEach_invariant enter
            (fun r => modules r !! "__proto__" = None
                      /\ packageScopeExports r !! "__proto__" = None));
    [|exact Hrun|done].
  intros node t t' _ Henter [Hmodules Hscope]. split.
  - rewrite (enter_modules _ _ _ Henter).
    destruct (parseMeteorInstall node) as [[install|]|] eqn:Hinstall; [|done..].
    by apply parseMeteorInstall_proto in Hinstall.
  - rewrite (enter_packageScopeExports _ _ _ Henter).
    destruct (parsePackageScope node) as [[scope|]|]; [|done..].
    by apply lookup_setProperty_proto.
Qed.

Lemma proto_never_an_entry_witness :
  parseSource protoBundle
  = Return (mkParsedPackage (str "demo") {["index.js" := [namedExport "B"]]} ""
              {["demo" := ["b"]]})
  /\ modules (mkParsedPackage (str "demo") {["index.js" := [namedExport "B"]]} ""
                {["demo" := ["b"]]}) !! "__proto__" = None
  /\ packageScopeExports
       (mkParsedPackage (str "demo") {["index.js" := [namedExport "B"]]} ""
          {["demo" := ["b"]]}) !! "__proto__" = None.
Proof.
  assert (Hrun : parseSource protoBundle
                 = Return (mkParsedPackage (str "demo")
                             {["index.js" := [namedExport "B"]]} ""
                             {["demo" := ["b"]]}))
    by (vm_compute; reflexivity).
  split; [exact Hrun|].
  exact (proto_never_an_entry protoBundle _ Hrun).
Defined.
